(** * The matchmaking service of The Gambit Engine

    A shallow embedding of [backend/services/matchmaking_service.py]:
    the three rating-bucket queues, the reverse index [player_lookup],
    the table of active games, enqueue and cancel, the pairing tick and
    the synthetic-opponent catalog.

    Conventions of the embedding.
    - Python [int] is [Z]; [//] and [%] with a positive divisor are
      [Z.div] and [Z.modulo]; [int(x)] on a number truncates
      ([Z.quot] on numerator and denominator).
    - A Python [float] that the service computes ([elo / 100],
      [total_seconds()], [time.time() * 1000]) is the exact rational
      [Q] it denotes; rounding error of the binary representation is
      not modelled.
    - A [datetime] is the number of microseconds since the epoch, a [Z].
      The wall clock is an oracle [clock : nat -> Z]: its [k]-th reading
      since the service started.  The service counts its readings.
    - A [dict] whose iteration order the code observes (the queues and
      [active_games]) is an insertion-ordered association list
      ([PyDict]); [player_lookup], which is only indexed, is a [gmap].
    - An [async] method that holds [self._lock] for its whole body is one
      atomic step on the service state.
    - [queue_player] reads [player], [player_elo], [preferred_opponent],
      [min_elo] and [max_elo] off its request.  The record
      [MatchmakingRequest] below has exactly the attributes the service
      reads (the pydantic class of [models/schemas.py] declares no
      [player_elo]; the service is modelled on the object it is written
      for).  Its fields carry the prefix [req_], since [QueuedPlayer]
      has fields of the same names. *)

From Stdlib Require Import ZArith QArith Qround Lia.
From stdpp Require Import base decidable option list gmap strings pretty.

Local Open Scope Z_scope.

(** ** Python numbers *)

(** [int(q)]: truncation toward zero. *)
Definition py_int (q : Q) : Z := Z.quot (Qnum q) (Zpos (Qden q)).

(** [round(q)]: round half to even, as Python 3 does. *)
Definition py_round (q : Q) : Z :=
  let f := Qfloor q in
  match Qcompare (q - inject_Z f) (1 # 2) with
  | Lt => f
  | Gt => f + 1
  | Eq => if Z.even f then f else f + 1
  end.

(** [a / b] on two ints (true division), for a positive literal [b]. *)
Definition py_truediv (a : Z) (b : positive) : Q := a # b.

(** [lo < q] on numbers. *)
Definition Qgtb (q lo : Q) : bool := negb (Qle_bool q lo).

(** ** Insertion-ordered dictionaries with integer keys *)

Module PyDict.

Definition t (V : Type) := list (Z * V).

Section Ops.
Context {V : Type}.

Definition empty : t V := [].

(** [d.get(k)] / [k in d] / [d[k]] *)
Fixpoint get (k : Z) (d : t V) : option V :=
  match d with
  | [] => None
  | (k', v) :: rest => if Z.eqb k k' then Some v else get k rest
  end.

Definition contains (k : Z) (d : t V) : bool :=
  match get k d with Some _ => true | None => false end.

(** [d[k] = v]: an existing key keeps its place, a new key goes last. *)
Fixpoint set (k : Z) (v : V) (d : t V) : t V :=
  match d with
  | [] => [(k, v)]
  | (k', v') :: rest =>
      if Z.eqb k k' then (k', v) :: rest else (k', v') :: set k v rest
  end.

(** [d.pop(k, None)]; a key occurs at most once in a dictionary, so
    dropping every entry under [k] drops the one there is. *)
Fixpoint pop (k : Z) (d : t V) : t V :=
  match d with
  | [] => []
  | (k', v') :: rest =>
      if Z.eqb k k' then pop k rest else (k', v') :: pop k rest
  end.

(** [list(d.items())] *)
Definition items (d : t V) : list (Z * V) := d.

Definition values (d : t V) : list V := snd <$> d.

Definition keys (d : t V) : list Z := fst <$> d.

(** [len(d)] *)
Definition len (d : t V) : Z := Z.of_nat (length d).
End Ops.

End PyDict.

(** ** Data model *)

Inductive OpponentType := HUMAN | AI | ANY.

#[global] Instance OpponentType_eq_dec : EqDecision OpponentType.
Proof. solve_decision. Defined.

Record QueuedPlayer := mkQueuedPlayer {
  player_address : string;
  elo : Z;
  preferred_opponent : OpponentType;
  queued_at : Z;
  min_elo : Z;
  max_elo : Z;
}.

(** The dataclass compares field by field. *)
#[global] Instance QueuedPlayer_eq_dec : EqDecision QueuedPlayer.
Proof. solve_decision. Defined.

Record MatchResult := mkMatchResult {
  player1 : string;
  player2 : string;
  player1_elo : Z;
  player2_elo : Z;
  game_id : Z;
  is_bot_match : bool;
  bot_level : option Z;
}.

Record MatchmakingRequest := mkRequest {
  req_player : string;
  req_player_elo : Z;
  req_preferred_opponent : OpponentType;
  req_min_elo : Z;
  req_max_elo : Z;
}.

Record QueueStatus := mkQueueStatus {
  is_queued : bool;
  queue_position : Z;
  estimated_wait_seconds : Z;
  status_preferred_opponent : OpponentType;
}.

Record BotConfig := mkBotConfig {
  bot_elo : Z;
  aggression : Z;
  error_rate : Z;
}.

(** The service object.  [clock_reads] counts the wall-clock readings
    made so far and [match_log] is the sequence of matches the service
    announced on its logger ("Match created" / "Bot match created"),
    oldest first. *)
Record MatchmakingService := mkService {
  human_queue : PyDict.t QueuedPlayer;
  ai_queue : PyDict.t QueuedPlayer;
  any_queue : PyDict.t QueuedPlayer;
  player_lookup : gmap string Z;
  active_games : PyDict.t MatchResult;
  clock_reads : nat;
  match_log : list MatchResult;
}.

(** [MatchmakingService.__init__] *)
Definition init : MatchmakingService :=
  {| human_queue := PyDict.empty; ai_queue := PyDict.empty;
     any_queue := PyDict.empty; player_lookup := ∅;
     active_games := PyDict.empty; clock_reads := 0%nat; match_log := [] |}.

Definition ELO_RANGE : Z := 200.
Definition MAX_WAIT_EXPAND_TIME : Z := 30.
Definition ELO_EXPAND_RATE : Z := 50.

(** [_init_bot_configs] *)
Definition bot_configs : gmap Z BotConfig :=
  list_to_map
    [ (1, mkBotConfig 400 10 30);
      (2, mkBotConfig 600 15 25);
      (3, mkBotConfig 800 20 20);
      (4, mkBotConfig 1000 25 15);
      (5, mkBotConfig 1200 30 12);
      (6, mkBotConfig 1400 35 10);
      (7, mkBotConfig 1600 40 8);
      (8, mkBotConfig 1800 45 6);
      (9, mkBotConfig 2000 50 4);
      (10, mkBotConfig 2200 55 2) ].

(** [_find_bot_level] *)
Definition _find_bot_level (player_elo : Z) : Z :=
  Z.max 1 (Z.min 10 ((player_elo - 200) / 200 + 1)).

(** [round(elo / 100) * 100], the bucket key of a rating. *)
Definition elo_bucket_of (player_elo : Z) : Z :=
  py_round (py_truediv player_elo 100) * 100.

(** The range computation of [_match_players] (lines 260-263), as a
    function of the [wait_time] in seconds. *)
Definition expanded_range (wait_time : Q) : Z :=
  if Qgtb wait_time (inject_Z MAX_WAIT_EXPAND_TIME) then
    let expansions :=
      py_int ((wait_time - inject_Z MAX_WAIT_EXPAND_TIME) / inject_Z 10) in
    ELO_RANGE + expansions * ELO_EXPAND_RATE
  else ELO_RANGE.

(** *** Field updates *)

Definition set_human_queue q (s : MatchmakingService) :=
  {| human_queue := q; ai_queue := ai_queue s; any_queue := any_queue s;
     player_lookup := player_lookup s; active_games := active_games s;
     clock_reads := clock_reads s; match_log := match_log s |}.

Definition set_ai_queue q (s : MatchmakingService) :=
  {| human_queue := human_queue s; ai_queue := q; any_queue := any_queue s;
     player_lookup := player_lookup s; active_games := active_games s;
     clock_reads := clock_reads s; match_log := match_log s |}.

Definition set_any_queue q (s : MatchmakingService) :=
  {| human_queue := human_queue s; ai_queue := ai_queue s; any_queue := q;
     player_lookup := player_lookup s; active_games := active_games s;
     clock_reads := clock_reads s; match_log := match_log s |}.

Definition set_player_lookup m (s : MatchmakingService) :=
  {| human_queue := human_queue s; ai_queue := ai_queue s;
     any_queue := any_queue s; player_lookup := m;
     active_games := active_games s; clock_reads := clock_reads s;
     match_log := match_log s |}.

Definition set_active_games g (s : MatchmakingService) :=
  {| human_queue := human_queue s; ai_queue := ai_queue s;
     any_queue := any_queue s; player_lookup := player_lookup s;
     active_games := g; clock_reads := clock_reads s;
     match_log := match_log s |}.

Definition set_clock_reads n (s : MatchmakingService) :=
  {| human_queue := human_queue s; ai_queue := ai_queue s;
     any_queue := any_queue s; player_lookup := player_lookup s;
     active_games := active_games s; clock_reads := n;
     match_log := match_log s |}.

Definition set_match_log l (s : MatchmakingService) :=
  {| human_queue := human_queue s; ai_queue := ai_queue s;
     any_queue := any_queue s; player_lookup := player_lookup s;
     active_games := active_games s; clock_reads := clock_reads s;
     match_log := l |}.

(** [_get_queue]: the dictionary an opponent type selects. *)
Definition _get_queue (opponent_type : OpponentType) (s : MatchmakingService)
  : PyDict.t QueuedPlayer :=
  match opponent_type with
  | HUMAN => human_queue s
  | AI => ai_queue s
  | ANY => any_queue s
  end.

(** Writing through the reference [_get_queue] returned. *)
Definition update_queue (opponent_type : OpponentType)
    (f : PyDict.t QueuedPlayer -> PyDict.t QueuedPlayer)
    (s : MatchmakingService) : MatchmakingService :=
  match opponent_type with
  | HUMAN => set_human_queue (f (human_queue s)) s
  | AI => set_ai_queue (f (ai_queue s)) s
  | ANY => set_any_queue (f (any_queue s)) s
  end.

(** ** Effects: the service state, the wall clock and exceptions *)

Inductive Exn := KeyError (key : Z).

Inductive Outcome (A : Type) :=
| Return (a : A)
| Raise (e : Exn).
Arguments Return {A} a.
Arguments Raise {A} e.

(** A method body: it runs on the service and leaves a service behind,
    also when it raises (Python does not roll mutations back). *)
Definition M (A : Type) : Type :=
  MatchmakingService -> Outcome A * MatchmakingService.

Definition ret {A} (a : A) : M A := fun s => (Return a, s).

Definition bind {A B} (c : M A) (k : A -> M B) : M B :=
  fun s =>
    match c s with
    | (Return a, s') => k a s'
    | (Raise e, s') => (Raise e, s')
    end.

Definition raise {A} (e : Exn) : M A := fun s => (Raise e, s).

Definition gets {A} (f : MatchmakingService -> A) : M A :=
  fun s => (Return (f s), s).

Definition modify (f : MatchmakingService -> MatchmakingService) : M unit :=
  fun s => (Return tt, f s).

Declare Scope py_scope.
Delimit Scope py_scope with py.
Notation "'let*' x ':=' c 'in' k" := (bind c (fun x => k))
  (at level 10, x name, c at level 100, k at level 200) : py_scope.
Local Open Scope py_scope.

(** [for x in items: acc = body(x, acc)] *)
Fixpoint for_each {A T} (items : list A) (body : A -> T -> M T) (acc : T)
  : M T :=
  match items with
  | [] => ret acc
  | x :: rest => let* acc' := body x acc in for_each rest body acc'
  end.

Section Service.

(** The wall clock: microseconds since the epoch at the [k]-th reading. *)
Variable clock : nat -> Z.

(** [datetime.utcnow()] *)
Definition utcnow : M Z :=
  fun s => (Return (clock (clock_reads s)),
            set_clock_reads (S (clock_reads s)) s).

(** [time.time()], in seconds. *)
Definition time_time : M Q :=
  let* now := utcnow in ret (now # 1000000).

(** [QueuedPlayer.wait_time], in seconds. *)
Definition wait_time (p : QueuedPlayer) : M Q :=
  let* now := utcnow in ret ((now - queued_at p) # 1000000).

(** [_generate_game_id] *)
Definition _generate_game_id : M Z :=
  let* t := time_time in
  ret (py_int (t * inject_Z 1000) mod 10000000000).

(** [_get_queue_position] *)
Definition _get_queue_position (player : QueuedPlayer)
    (s : MatchmakingService) : Z :=
  let queue := _get_queue (preferred_opponent player) s in
  fold_left
    (fun position '(elo_bucket, queued) =>
       if Z.leb (Z.abs (elo_bucket - elo player)) ELO_RANGE
       then if Z.ltb (queued_at queued) (queued_at player)
            then position + 1 else position
       else position)
    (PyDict.items queue) 1.

(** [_estimate_wait_time] *)
Definition _estimate_wait_time (opponent_type : OpponentType)
    (s : MatchmakingService) : Z :=
  let queue_size := PyDict.len (_get_queue opponent_type s) in
  if Z.eqb queue_size 0 then 5
  else if Z.ltb queue_size 5 then 15
  else if Z.ltb queue_size 10 then 30
  else 60.

(** [queue_player] *)
Definition queue_player (request : MatchmakingRequest) : M QueueStatus :=
  let elo_bucket := elo_bucket_of (req_player_elo request) in
  let* now := utcnow in
  let player :=
    {| player_address := req_player request;
       elo := req_player_elo request;
       preferred_opponent := req_preferred_opponent request;
       queued_at := now;
       min_elo := req_min_elo request;
       max_elo := req_max_elo request |} in
  let* _ := modify (update_queue (req_preferred_opponent request)
                      (PyDict.set elo_bucket player)) in
  let* _ := modify (fun s =>
                      set_player_lookup
                        (<[req_player request := elo_bucket]>
                           (player_lookup s)) s) in
  let* position := gets (_get_queue_position player) in
  let* wait := gets (_estimate_wait_time (req_preferred_opponent request)) in
  ret {| is_queued := true;
         queue_position := position;
         estimated_wait_seconds := wait;
         status_preferred_opponent := req_preferred_opponent request |}.

(** [cancel_queue] *)
Definition cancel_queue (address : string) : M bool :=
  let* lookup := gets player_lookup in
  match lookup !! address with
  | None => ret false
  | Some elo_bucket =>
      let* _ :=
        for_each [HUMAN; AI; ANY]
          (fun queue (_ : unit) =>
             modify (update_queue queue (PyDict.pop elo_bucket)))
          tt in
      let* _ := modify (fun s =>
                          set_player_lookup
                            (delete address (player_lookup s)) s) in
      ret true
  end.

(** The tail shared by [_create_match] and [_create_bot_match]:
    [self.active_games[game_id] = match] and the log line. *)
Definition record_match (m : MatchResult) : M unit :=
  let* _ := modify (fun s =>
                      set_active_games
                        (PyDict.set (game_id m) m (active_games s)) s) in
  modify (fun s => set_match_log (match_log s ++ [m]) s).

(** [_create_match] *)
Definition _create_match (p1 p2 : QueuedPlayer) (is_bot : bool)
    (level : option Z) : M unit :=
  let* gid := _generate_game_id in
  let '(white_player, black_player) :=
    if Z.geb (elo p1) (elo p2)
    then (player_address p1, player_address p2)
    else (player_address p2, player_address p1) in
  record_match
    {| player1 := white_player;
       player2 := black_player;
       player1_elo :=
         if String.eqb white_player (player_address p1)
         then elo p1 else elo p2;
       player2_elo :=
         if String.eqb black_player (player_address p2)
         then elo p2 else elo p1;
       game_id := gid;
       is_bot_match := is_bot;
       bot_level := level |}.

(** [_create_bot_match]; [self.bot_configs[bot_level]] raises
    [KeyError] on a level the table lacks. *)
Definition _create_bot_match (player : QueuedPlayer) : M unit :=
  let level := _find_bot_level (elo player) in
  match bot_configs !! level with
  | None => raise (KeyError level)
  | Some bot_config =>
      let* gid := _generate_game_id in
      record_match
        {| player1 := player_address player;
           player2 := String.append "bot_" (pretty level);
           player1_elo := elo player;
           player2_elo := bot_elo bot_config;
           game_id := gid;
           is_bot_match := true;
           bot_level := Some level |}
  end.

(** The inner loop of [_match_players]: the first other waiter, in
    iteration order, that is not this player, not yet matched and
    within range. *)
Fixpoint find_partner (player : QueuedPlayer) (range : Z)
    (to_remove : list QueuedPlayer) (items : list (Z * QueuedPlayer))
  : option QueuedPlayer :=
  match items with
  | [] => None
  | (_, other_player) :: rest =>
      if bool_decide (other_player = player)
         || bool_decide (other_player ∈ to_remove)
      then find_partner player range to_remove rest
      else if Z.leb (Z.abs (elo other_player - elo player)) range
      then Some other_player
      else find_partner player range to_remove rest
  end.

(** One iteration of the outer loop of [_match_players]. *)
Definition match_step (queue_type : OpponentType)
    (snapshot : list (Z * QueuedPlayer)) (entry : Z * QueuedPlayer)
    (to_remove : list QueuedPlayer) : M (list QueuedPlayer) :=
  let player := entry.2 in
  if bool_decide (player ∈ to_remove) then ret to_remove
  else
    let* w := wait_time player in
    let* to_remove :=
      match find_partner player (expanded_range w) to_remove snapshot with
      | Some other_player =>
          let* _ := _create_match player other_player false None in
          ret (to_remove ++ [player; other_player])
      | None => ret to_remove
      end in
    if bool_decide (queue_type = ANY)
       && negb (bool_decide (player ∈ to_remove))
    then
      let* w' := wait_time player in
      if Qgtb w' (inject_Z 10)
      then let* _ := _create_bot_match player in
           ret (to_remove ++ [player])
      else ret to_remove
    else ret to_remove.

(** The closing loop of [_match_players] and [_match_ai_players]. *)
Definition remove_matched (queue : OpponentType)
    (to_remove : list QueuedPlayer) : M unit :=
  for_each to_remove
    (fun player (_ : unit) =>
       let* _ := modify (update_queue queue
                           (PyDict.pop (elo_bucket_of (elo player)))) in
       modify (fun s =>
                 set_player_lookup
                   (delete (player_address player) (player_lookup s)) s))
    tt.

(** [_match_players]; [queue] names the dictionary passed in. *)
Definition _match_players (queue : OpponentType)
    (queue_type : OpponentType) : M unit :=
  let* snapshot := gets (fun s => PyDict.items (_get_queue queue s)) in
  let* to_remove := for_each snapshot (match_step queue_type snapshot) [] in
  remove_matched queue to_remove.

(** [_match_ai_players] *)
Definition _match_ai_players : M unit :=
  let* snapshot := gets (fun s => PyDict.items (ai_queue s)) in
  let* to_remove :=
    for_each snapshot
      (fun entry to_remove =>
         let* _ := _create_bot_match entry.2 in
         ret (to_remove ++ [entry.2]))
      [] in
  remove_matched AI to_remove.

(** [_process_matches]: one pairing tick. *)
Definition _process_matches : M unit :=
  let* _ := _match_players HUMAN HUMAN in
  let* _ := _match_players ANY ANY in
  _match_ai_players.

End Service.

(** ** Clients and observations *)

(** The final service state of a method body. *)
Definition exec {A} (c : M A) (s : MatchmakingService) : MatchmakingService :=
  snd (c s).

(** What the method returned (or raised). *)
Definition result {A} (c : M A) (s : MatchmakingService) : Outcome A :=
  fst (c s).

(** The requests of the queue API. *)
Inductive Op :=
| Enqueue (request : MatchmakingRequest)
| Cancel (address : string).

Definition step (clock : nat -> Z) (s : MatchmakingService) (op : Op)
  : MatchmakingService :=
  match op with
  | Enqueue request => exec (queue_player clock request) s
  | Cancel address => exec (cancel_queue address) s
  end.

Definition run (clock : nat -> Z) (ops : list Op) (s : MatchmakingService)
  : MatchmakingService :=
  fold_left (step clock) ops s.

(** Some waiter stored in [queue] has this identity. *)
Definition waits_in (address : string) (queue : PyDict.t QueuedPlayer) : bool :=
  existsb (fun p => String.eqb (player_address p) address)
    (PyDict.values queue).

(** The queue categories that store a waiter of this identity. *)
Definition queues_holding (address : string) (s : MatchmakingService)
  : list OpponentType :=
  List.filter (fun t => waits_in address (_get_queue t s)) [HUMAN; AI; ANY].

(** The reverse index and the queues agree. *)
Definition index_consistent (s : MatchmakingService) : Prop :=
  (forall address : string,
      is_Some (player_lookup s !! address) ->
      length (queues_holding address s) = 1%nat)
  /\ (forall (t : OpponentType) (p : QueuedPlayer),
        p ∈ PyDict.values (_get_queue t s) ->
        is_Some (player_lookup s !! player_address p)).

(** No queue has a waiter under this bucket key. *)
Definition bucket_free (elo_bucket : Z) (s : MatchmakingService) : bool :=
  negb (PyDict.contains elo_bucket (human_queue s))
  && negb (PyDict.contains elo_bucket (ai_queue s))
  && negb (PyDict.contains elo_bucket (any_queue s)).

(** An enqueue of an identity that is not queued, into a bucket that no
    queue occupies. *)
Definition fresh_enqueue (request : MatchmakingRequest)
    (s : MatchmakingService) : bool :=
  bool_decide (player_lookup s !! req_player request = None)
  && bucket_free (elo_bucket_of (req_player_elo request)) s.

(** Every enqueue of the sequence is fresh when it is issued. *)
Fixpoint all_fresh (clock : nat -> Z) (ops : list Op) (s : MatchmakingService)
  : bool :=
  match ops with
  | [] => true
  | op :: rest =>
      match op with
      | Enqueue request => fresh_enqueue request s
      | Cancel _ => true
      end
      && all_fresh clock rest (step clock s op)
  end.

(** The waiter [queue_player] stores for a request. *)
Definition new_waiter (clock : nat -> Z) (request : MatchmakingRequest)
    (s : MatchmakingService) : QueuedPlayer :=
  {| player_address := req_player request;
     elo := req_player_elo request;
     preferred_opponent := req_preferred_opponent request;
     queued_at := clock (clock_reads s);
     min_elo := req_min_elo request;
     max_elo := req_max_elo request |}.

(** The invariant behind [index_consistent]: bucket keys are unique
    across the three queues, every stored waiter is indexed under its
    key, and every index entry points at a waiter of that identity. *)
Record queue_inv (s : MatchmakingService) : Prop := {
  inv_keys : forall t, NoDup (PyDict.keys (_get_queue t s));
  inv_indexed : forall t k p,
    PyDict.get k (_get_queue t s) = Some p ->
    player_lookup s !! player_address p = Some k;
  inv_stored : forall address k,
    player_lookup s !! address = Some k ->
    exists t p, PyDict.get k (_get_queue t s) = Some p
                /\ player_address p = address;
  inv_one_queue : forall t1 t2 k,
    is_Some (PyDict.get k (_get_queue t1 s)) ->
    is_Some (PyDict.get k (_get_queue t2 s)) -> t1 = t2;
}.

(** A request with the default rating window of the schema. *)
Definition request_of (address : string) (player_elo : Z)
    (opponent : OpponentType) : MatchmakingRequest :=
  {| req_player := address; req_player_elo := player_elo;
     req_preferred_opponent := opponent;
     req_min_elo := 0; req_max_elo := 3000 |}.

(** A wall clock for the examples: one microsecond passes between two
    readings. *)
Definition sample_clock (k : nat) : Z := 1700000000123000 + Z.of_nat k.

(** A wall clock for the scenario of two players who enqueue at the
    same instant: the first two readings agree, and the later ones, those
    of the tick, come two seconds after. *)
Definition instant_clock (k : nat) : Z :=
  if Nat.ltb k 2 then 1700000000123000 else 1700000002123000.

(** All waiters of the three queues, in tick order. *)
Definition waiters (s : MatchmakingService) : list QueuedPlayer :=
  PyDict.values (human_queue s) ++ PyDict.values (any_queue s)
  ++ PyDict.values (ai_queue s).

(** The player identities a match consumed from the queues: both sides
    of a human match, the first side of a bot match. *)
Definition consumed (m : MatchResult) : list string :=
  if is_bot_match m then [player1 m] else [player1 m; player2 m].

(** [s'] is [s] after some matches were created and nothing else
    happened: queues and index are those of [s], the log gained
    [created]. *)
Definition matches_created (s s' : MatchmakingService)
    (created : list MatchResult) : Prop :=
  human_queue s' = human_queue s
  /\ ai_queue s' = ai_queue s
  /\ any_queue s' = any_queue s
  /\ player_lookup s' = player_lookup s
  /\ match_log s' = match_log s ++ created.

(** The identities consumed by a list of matches, in order. *)
Definition consumed_by (created : list MatchResult) : list string :=
  concat (consumed <$> created).

(** ** The specification's formulas *)

(** [clamp(lo, hi, x)] *)
Definition clamp (lo hi x : Z) : Z :=
  if Z.ltb x lo then lo else if Z.ltb hi x then hi else x.

(** [level_for]: [clamp(1, 10, (rating - 200) / 200 + 1)], an integer
    level, the quotient rounded down. *)
Definition level_for (rating : Z) : Z :=
  clamp 1 10 (Qfloor (inject_Z (rating - 200) / inject_Z 200) + 1).

(** [base_range + max(0, floor((wait_time - expand_threshold) /
    expand_interval)) * expand_step] with the defaults 200, 30s, 10s, 50. *)
Definition spec_expanded_range (wait_time : Q) : Z :=
  200 + Z.max 0 (Qfloor ((wait_time - inject_Z 30) / inject_Z 10)) * 50.

(** ** Status, match retrieval and the accept route *)

(** The value of an enum member, [OpponentType.X.value]. *)
Definition OpponentType_value (t : OpponentType) : string :=
  match t with
  | HUMAN => "HUMAN"
  | AI => "AI"
  | ANY => "ANY"
  end.

(** [OpponentType(value)]: the member that has this value; [None] where
    Python raises [ValueError]. *)
Definition OpponentType_of_value (value : string) : option OpponentType :=
  List.find (fun t => String.eqb (OpponentType_value t) value)
    [HUMAN; AI; ANY].

Inductive EnumError := ValueError (value : string).

(** The loop of [get_queue_status] over the named queues: the first
    queue that has the bucket key yields its waiter and the opponent type
    built from the queue's name; [player = None] and
    [queue_type = OpponentType.ANY] are the values before the loop. *)
Fixpoint find_queued (elo_bucket : Z)
    (queues : list (string * PyDict.t QueuedPlayer))
  : EnumError + (option QueuedPlayer * OpponentType) :=
  match queues with
  | [] => inr (None, ANY)
  | (queue_name, queue) :: rest =>
      match PyDict.get elo_bucket queue with
      | Some player =>
          match OpponentType_of_value queue_name with
          | Some queue_type => inr (Some player, queue_type)
          | None => inl (ValueError queue_name)
          end
      | None => find_queued elo_bucket rest
      end
  end.

(** [get_queue_status]; it reads the service and changes nothing. *)
Definition get_queue_status (address : string) (s : MatchmakingService)
  : EnumError + option QueueStatus :=
  match player_lookup s !! address with
  | None => inr None
  | Some elo_bucket =>
      match find_queued elo_bucket
              [("human", human_queue s); ("ai", ai_queue s);
               ("any", any_queue s)] with
      | inl e => inl e
      | inr (None, _) => inr None
      | inr (Some player, queue_type) =>
          inr (Some {| is_queued := true;
                       queue_position := _get_queue_position player s;
                       estimated_wait_seconds :=
                         _estimate_wait_time queue_type s;
                       status_preferred_opponent := queue_type |})
      end
  end.

Inductive PieceColor := WHITE | BLACK.

(** The schema [MatchFound]; [found_game_id] and [found_bot_level] are
    its [game_id] and [bot_level]. *)
Record MatchFound := mkMatchFound {
  found_game_id : Z;
  opponent : string;
  opponent_elo : Z;
  is_bot : bool;
  found_bot_level : option Z;
  color : PieceColor;
}.

(** The loop of [get_match_result] over [active_games.items()]. *)
Fixpoint find_match (address : string) (games : list (Z * MatchResult))
  : option MatchFound :=
  match games with
  | [] => None
  | (gid, m) :: rest =>
      if String.eqb (player1 m) address || String.eqb (player2 m) address
      then
        let is_white := String.eqb (player1 m) address in
        Some {| found_game_id := gid;
                opponent := if is_white then player2 m else player1 m;
                opponent_elo :=
                  if is_white then player2_elo m else player1_elo m;
                is_bot := is_bot_match m;
                found_bot_level := bot_level m;
                color := if is_white then WHITE else BLACK |}
      else find_match address rest
  end.

(** [get_match_result] *)
Definition get_match_result (address : string) (s : MatchmakingService)
  : option MatchFound :=
  find_match address (PyDict.items (active_games s)).



(** ** Events of a running service *)

(** A request of the queue API or a tick of the background loop. *)
Inductive Event :=
| Request (op : Op)
| Tick.

Definition step_event (clock : nat -> Z) (s : MatchmakingService)
    (e : Event) : MatchmakingService :=
  match e with
  | Request op => step clock s op
  | Tick => exec (_process_matches clock) s
  end.

Definition run_events (clock : nat -> Z) (events : list Event)
    (s : MatchmakingService) : MatchmakingService :=
  fold_left (step_event clock) events s.

(** Every queue is a dictionary (no key twice) that stores each waiter
    under the bucket key of its rating, in the queue of its preference. *)
Definition bucket_keyed (s : MatchmakingService) : Prop :=
  forall t : OpponentType,
    NoDup (PyDict.keys (_get_queue t s))
    /\ forall k p, (k, p) ∈ _get_queue t s ->
                   k = elo_bucket_of (elo p) /\ preferred_opponent p = t.

(** The id [_generate_game_id] derives from a clock reading. *)
Definition game_id_at (now : Z) : Z :=
  py_int ((now # 1000000) * inject_Z 1000) mod 10000000000.

(** The record [_create_match] builds for two waiters. *)
Definition pair_match (p1 p2 : QueuedPlayer) (gid : Z) : MatchResult :=
  let '(white_player, black_player) :=
    if Z.geb (elo p1) (elo p2)
    then (player_address p1, player_address p2)
    else (player_address p2, player_address p1) in
  {| player1 := white_player;
     player2 := black_player;
     player1_elo :=
       if String.eqb white_player (player_address p1)
       then elo p1 else elo p2;
     player2_elo :=
       if String.eqb black_player (player_address p2)
       then elo p2 else elo p1;
     game_id := gid;
     is_bot_match := false;
     bot_level := None |}.

(** The record [_create_bot_match] builds for a waiter and the bot
    configuration it found. *)
Definition bot_match (player : QueuedPlayer) (bot_config : BotConfig)
    (gid : Z) : MatchResult :=
  {| player1 := player_address player;
     player2 := String.append "bot_" (pretty (_find_bot_level (elo player)));
     player1_elo := elo player;
     player2_elo := bot_elo bot_config;
     game_id := gid;
     is_bot_match := true;
     bot_level := Some (_find_bot_level (elo player)) |}.

(** Where a match of a tick came from: two distinct waiters of one
    queue, the second within the window the first had at some clock
    reading, or one waiter of a queue that falls back to bots. *)
Definition match_origin (clock : nat -> Z) (bots : bool)
    (queue : PyDict.t QueuedPlayer) (m : MatchResult) : Prop :=
  (exists p q gid n,
      p ∈ PyDict.values queue /\ q ∈ PyDict.values queue /\ p <> q
      /\ Z.abs (elo q - elo p)
         <= expanded_range ((clock n - queued_at p) # 1000000)
      /\ m = pair_match p q gid)
  \/ (bots = true
      /\ exists p bot_config gid,
           p ∈ PyDict.values queue
           /\ bot_configs !! _find_bot_level (elo p) = Some bot_config
           /\ m = bot_match p bot_config gid).

(** A wall clock for the fallback scenario: six seconds pass between
    two readings. *)
Definition slow_clock (k : nat) : Z :=
  1700000000123000 + 6000000 * Z.of_nat k.

(** ** Relating the state before and after a method *)

(** The method body returns normally from every state, and relates the
    state it leaves to the state it found by [R]. *)
Definition preserves {A} (R : MatchmakingService -> MatchmakingService -> Prop)
    (c : M A) : Prop :=
  forall s, exists a s', c s = (Return a, s') /\ R s s'.

(** Nothing was added to a queue or to the index, no game id left the
    registry, and the log grew at its end. *)
Definition only_shrinks (s s' : MatchmakingService) : Prop :=
  (forall t,
      (NoDup (PyDict.keys (_get_queue t s)) ->
       NoDup (PyDict.keys (_get_queue t s')))
      /\ forall k p, (k, p) ∈ _get_queue t s' -> (k, p) ∈ _get_queue t s)
  /\ (forall address k,
        player_lookup s' !! address = Some k ->
        player_lookup s !! address = Some k)
  /\ (forall gid,
        is_Some (PyDict.get gid (active_games s)) ->
        is_Some (PyDict.get gid (active_games s')))
  /\ (exists created, match_log s' = match_log s ++ created).

(** The log grew by matches that all satisfy [P]; the queues and the
    index are untouched. *)
Definition logs_only (P : MatchResult -> Prop)
    (s s' : MatchmakingService) : Prop :=
  (forall t, _get_queue t s' = _get_queue t s)
  /\ player_lookup s' = player_lookup s
  /\ exists created,
       match_log s' = match_log s ++ created /\ Forall P created.

(** * Properties *)

(** ** The synthetic-opponent catalog *)

Lemma Qfloor_div_pos (n : Z) (d : positive) :
  Qfloor (inject_Z n / inject_Z (Zpos d)) = n / Zpos d.
Proof.
  unfold Qdiv, Qinv, Qmult, inject_Z, Qfloor; simpl.
  rewrite Z.mul_1_r. reflexivity.
Qed.

Lemma _find_bot_level_range (player_elo : Z) :
  1 <= _find_bot_level player_elo <= 10.
Proof. unfold _find_bot_level. lia. Qed.

(** C9: for every integer rating, [_find_bot_level] returns
    [clamp(1, 10, (rating - 200) / 200 + 1)], and that level lies between 1
    and 10 inclusive. *)
Theorem find_bot_level_is_clamped_linear (rating : Z) :
  _find_bot_level rating = level_for rating
  /\ 1 <= _find_bot_level rating <= 10.
Proof.
  split; [| apply _find_bot_level_range].
  unfold level_for, clamp, _find_bot_level.
  rewrite (Qfloor_div_pos (rating - 200) 200).
  destruct (Z.ltb_spec ((rating - 200) / 200 + 1) 1);
    destruct (Z.ltb_spec 10 ((rating - 200) / 200 + 1)); lia.
Qed.

Lemma bot_configs_keys (k : Z) :
  is_Some (bot_configs !! k) <-> 1 <= k <= 10.
Proof.
  split.
  - intros [cfg Hk]. unfold bot_configs in Hk.
    apply elem_of_list_to_map_2 in Hk.
    repeat (apply elem_of_cons in Hk as [Hk | Hk];
            [inversion Hk; lia |]).
    inversion Hk.
  - intros Hk.
    assert (k = 1 \/ k = 2 \/ k = 3 \/ k = 4 \/ k = 5 \/ k = 6 \/ k = 7
            \/ k = 8 \/ k = 9 \/ k = 10) as Hcases by lia.
    repeat (destruct Hcases as [-> | Hcases]; [vm_compute; eauto |]).
    subst k. vm_compute. eauto.
Qed.

Lemma bot_level_configured (player_elo : Z) :
  is_Some (bot_configs !! _find_bot_level player_elo).
Proof. apply bot_configs_keys, _find_bot_level_range. Qed.

(** The bot match always goes through; it leaves the queues and the
    reverse index alone and announces one match whose first side is the
    player. *)
Lemma _create_bot_match_spec clock (player : QueuedPlayer)
    (s : MatchmakingService) :
  exists m,
    _create_bot_match clock player s
    = (Return tt,
       set_match_log (match_log s ++ [m])
         (set_active_games (PyDict.set (game_id m) m (active_games s))
            (set_clock_reads (S (clock_reads s)) s)))
    /\ player1 m = player_address player
    /\ is_bot_match m = true
    /\ bot_level m = Some (_find_bot_level (elo player)).
Proof.
  unfold _create_bot_match.
  destruct (bot_level_configured (elo player)) as [cfg ->].
  eexists. split; [reflexivity |]. simpl. auto.
Qed.

(** C10: for every integer rating the computed bot level is a key of the
    bot table, whose keys are exactly 1 to 10, so creating a
    synthetic-opponent match never fails on the catalog lookup. *)
Theorem bot_match_lookup_never_fails :
  (forall k : Z, is_Some (bot_configs !! k) <-> 1 <= k <= 10)
  /\ (forall player_elo : Z,
        is_Some (bot_configs !! _find_bot_level player_elo))
  /\ (forall clock (player : QueuedPlayer) (s : MatchmakingService),
        fst (_create_bot_match clock player s) = Return tt).
Proof.
  split; [apply bot_configs_keys |].
  split; [apply bot_level_configured |].
  intros clock player s.
  destruct (_create_bot_match_spec clock player s) as (m & -> & _).
  reflexivity.
Qed.

(** ** Rating-window expansion *)

Lemma Qgtb_spec (q lo : Q) : Qgtb q lo = true <-> (lo < q)%Q.
Proof.
  unfold Qgtb. rewrite negb_true_iff.
  destruct (Qle_bool q lo) eqn:E.
  - apply Qle_bool_iff in E. split; [discriminate |].
    intros Hlt. exfalso. exact (Qlt_not_le _ _ Hlt E).
  - split; [intros _ | reflexivity].
    apply Qnot_le_lt. intros Hle. apply Qle_bool_iff in Hle. congruence.
Qed.

(** On a number that is not negative, [int] is [floor]. *)
Lemma py_int_nonneg (q : Q) : (0 <= q)%Q -> py_int q = Qfloor q.
Proof.
  destruct q as [n d]. unfold Qle, py_int, Qfloor. simpl.
  intros Hn. apply Z.quot_div_nonneg; lia.
Qed.

Lemma Qfloor_nonneg (q : Q) : (0 <= q)%Q -> 0 <= Qfloor q.
Proof.
  intros Hq. change 0 with (Qfloor (inject_Z 0)).
  apply Qfloor_resp_le. exact Hq.
Qed.

Lemma Qfloor_nonpos (q : Q) : (q <= 0)%Q -> Qfloor q <= 0.
Proof.
  intros Hq. change 0 with (Qfloor (inject_Z 0)).
  apply Qfloor_resp_le. exact Hq.
Qed.

Lemma wait_excess_sign_pos (w : Q) :
  (inject_Z 30 < w)%Q -> (0 <= (w - inject_Z 30) / inject_Z 10)%Q.
Proof.
  intros Hw. apply Qle_shift_div_l; [reflexivity |].
  rewrite Qmult_0_l. apply Qlt_le_weak.
  apply Qlt_minus_iff in Hw. exact Hw.
Qed.

Lemma wait_excess_sign_neg (w : Q) :
  (w <= inject_Z 30)%Q -> ((w - inject_Z 30) / inject_Z 10 <= 0)%Q.
Proof.
  intros Hw. apply Qle_shift_div_r; [reflexivity |].
  rewrite Qmult_0_l.
  apply (Qplus_le_l _ _ (inject_Z 30)). ring_simplify. exact Hw.
Qed.

Lemma expanded_range_eq_spec (w : Q) :
  expanded_range w = spec_expanded_range w.
Proof.
  unfold expanded_range, spec_expanded_range, ELO_RANGE, ELO_EXPAND_RATE,
    MAX_WAIT_EXPAND_TIME.
  destruct (Qgtb w (inject_Z 30)) eqn:E.
  - apply Qgtb_spec in E. apply wait_excess_sign_pos in E.
    rewrite (py_int_nonneg _ E).
    pose proof (Qfloor_nonneg _ E). lia.
  - assert (w <= inject_Z 30)%Q as Hle.
    { apply Qnot_lt_le. intros Hlt. apply Qgtb_spec in Hlt. congruence. }
    pose proof (Qfloor_nonpos _ (wait_excess_sign_neg _ Hle)). lia.
Qed.

Lemma spec_expanded_range_mono (w1 w2 : Q) :
  (w1 <= w2)%Q -> spec_expanded_range w1 <= spec_expanded_range w2.
Proof.
  intros Hw. unfold spec_expanded_range.
  assert (Qfloor ((w1 - inject_Z 30) / inject_Z 10)
          <= Qfloor ((w2 - inject_Z 30) / inject_Z 10)) as Hfl.
  { apply Qfloor_resp_le. unfold Qdiv.
    apply Qmult_le_compat_r; [| discriminate].
    unfold Qminus. apply Qplus_le_l. exact Hw. }
  lia.
Qed.

(** The window never shrinks below the base range. *)
Lemma expanded_range_at_least_base (w : Q) : ELO_RANGE <= expanded_range w.
Proof.
  rewrite expanded_range_eq_spec. unfold spec_expanded_range, ELO_RANGE. lia.
Qed.

(** C8: the expanded range a tick computes for a waiter is
    [base_range + max(0, floor((wait_time - 30) / 10)) * 50] with base
    range 200, and it is monotonically non-decreasing in the wait time. *)
Theorem expanded_range_formula_and_monotone :
  (forall w : Q, expanded_range w = spec_expanded_range w)
  /\ (forall w1 w2 : Q,
        (w1 <= w2)%Q -> expanded_range w1 <= expanded_range w2).
Proof.
  split; [exact expanded_range_eq_spec |].
  intros w1 w2 Hw. rewrite !expanded_range_eq_spec.
  apply spec_expanded_range_mono, Hw.
Qed.

Lemma expanded_range_formula_and_monotone_witness :
  expanded_range (45 # 1) = 250
  /\ expanded_range (29 # 1) <= expanded_range (45 # 1).
Proof.
  destruct expanded_range_formula_and_monotone as [Hformula Hmono].
  split.
  - rewrite Hformula. reflexivity.
  - apply Hmono. discriminate.
Defined.

(** ** Dictionary facts *)

Section PyDictFacts.
Context {V : Type}.
Implicit Types (d : PyDict.t V) (k : Z) (v : V).

Lemma get_set_eq d k v : PyDict.get k (PyDict.set k v d) = Some v.
Proof.
  induction d as [| [k' v'] d IH]; csimpl.
  - rewrite Z.eqb_refl. reflexivity.
  - destruct (Z.eqb_spec k k') as [-> | Hne]; csimpl.
    + rewrite Z.eqb_refl. reflexivity.
    + destruct (Z.eqb_spec k k'); [contradiction | exact IH].
Qed.

Lemma get_set_ne d k k' v :
  k <> k' -> PyDict.get k' (PyDict.set k v d) = PyDict.get k' d.
Proof.
  intros Hne. induction d as [| [k0 v0] d IH]; csimpl.
  - destruct (Z.eqb_spec k' k); [congruence | reflexivity].
  - destruct (Z.eqb_spec k k0) as [-> | Hk]; csimpl.
    + destruct (Z.eqb_spec k' k0); [congruence | reflexivity].
    + rewrite IH. reflexivity.
Qed.

Lemma get_pop_eq d k : PyDict.get k (PyDict.pop k d) = None.
Proof.
  induction d as [| [k' v'] d IH]; csimpl; [reflexivity |].
  destruct (Z.eqb_spec k k') as [-> | Hne]; csimpl; [exact IH |].
  destruct (Z.eqb_spec k k'); [contradiction | exact IH].
Qed.

Lemma get_pop_ne d k k' :
  k <> k' -> PyDict.get k' (PyDict.pop k d) = PyDict.get k' d.
Proof.
  intros Hne. induction d as [| [k0 v0] d IH]; csimpl; [reflexivity |].
  destruct (Z.eqb_spec k k0) as [-> | Hk]; csimpl.
  - rewrite IH. destruct (Z.eqb_spec k' k0); [congruence | reflexivity].
  - rewrite IH. reflexivity.
Qed.

Lemma get_Some_elem d k v : PyDict.get k d = Some v -> (k, v) ∈ d.
Proof.
  induction d as [| [k' v'] d IH]; csimpl; [discriminate |].
  destruct (Z.eqb_spec k k') as [-> | Hne].
  - intros [= ->]. apply elem_of_cons. left. reflexivity.
  - intros H. apply elem_of_cons. right. apply IH, H.
Qed.

Lemma get_None_keys d k : PyDict.get k d = None <-> k ∉ PyDict.keys d.
Proof.
  unfold PyDict.keys.
  induction d as [| [k' v'] d IH]; csimpl.
  - split; [intros _; apply not_elem_of_nil | reflexivity].
  - rewrite not_elem_of_cons.
    destruct (Z.eqb_spec k k') as [-> | Hne].
    + split; [discriminate | intros [? _]; congruence].
    + rewrite IH. tauto.
Qed.

Lemma elem_get d k v :
  NoDup (PyDict.keys d) -> (k, v) ∈ d -> PyDict.get k d = Some v.
Proof.
  unfold PyDict.keys.
  induction d as [| [k' v'] d IH]; csimpl; intros Hnd Hin.
  - inversion Hin.
  - apply NoDup_cons in Hnd as [Hk' Hnd].
    apply elem_of_cons in Hin as [[= -> ->] | Hin].
    + rewrite Z.eqb_refl. reflexivity.
    + destruct (Z.eqb_spec k k') as [-> | Hne]; [| auto].
      exfalso. apply Hk'.
      apply (list_elem_of_fmap_2 fst) in Hin. exact Hin.
Qed.

Lemma keys_set_fresh d k v :
  PyDict.get k d = None -> PyDict.set k v d = d ++ [(k, v)].
Proof.
  induction d as [| [k' v'] d IH]; csimpl; [reflexivity |].
  destruct (Z.eqb_spec k k'); [discriminate |].
  intros H. rewrite (IH H). reflexivity.
Qed.

Lemma keys_set_present d k v :
  is_Some (PyDict.get k d) ->
  PyDict.keys (PyDict.set k v d) = PyDict.keys d.
Proof.
  unfold PyDict.keys.
  induction d as [| [k' v'] d IH]; csimpl; intros [x Hx]; [discriminate |].
  destruct (Z.eqb_spec k k'); csimpl; [reflexivity |].
  rewrite IH; eauto.
Qed.

Lemma NoDup_keys_set d k v :
  NoDup (PyDict.keys d) -> NoDup (PyDict.keys (PyDict.set k v d)).
Proof.
  intros Hnd. destruct (PyDict.get k d) eqn:E.
  - rewrite keys_set_present; eauto.
  - rewrite (keys_set_fresh _ _ _ E). unfold PyDict.keys in *.
    rewrite fmap_app. csimpl. apply NoDup_app. split; [exact Hnd |].
    split; [| apply NoDup_singleton].
    intros x Hx Hx'. apply list_elem_of_singleton in Hx'. subst x.
    apply get_None_keys in E. exact (E Hx).
Qed.

Lemma elem_pop d k k' v :
  (k', v) ∈ PyDict.pop k d <-> (k', v) ∈ d /\ k' <> k.
Proof.
  induction d as [| [k0 v0] d IH]; csimpl.
  - split; [intros H; inversion H | intros [H _]; inversion H].
  - destruct (Z.eqb_spec k k0) as [-> | Hne].
    + rewrite IH, elem_of_cons. split; [tauto |].
      intros [[[= -> ->] | H] Hk]; [contradiction | tauto].
    + rewrite !elem_of_cons, IH. split.
      * intros [[= -> ->] | [H Hk]]; [split; [auto | congruence] | tauto].
      * intros [[H | H] Hk]; tauto.
Qed.

Lemma NoDup_keys_pop d k :
  NoDup (PyDict.keys d) -> NoDup (PyDict.keys (PyDict.pop k d)).
Proof.
  unfold PyDict.keys.
  induction d as [| [k0 v0] d IH]; csimpl; intros Hnd; [constructor |].
  apply NoDup_cons in Hnd as [Hk0 Hnd].
  destruct (Z.eqb_spec k k0); [auto |].
  csimpl. apply NoDup_cons. split; [| auto].
  intros Hin. apply Hk0.
  apply list_elem_of_fmap in Hin as [[k1 v1] [-> Hin]].
  apply elem_pop in Hin as [Hin _].
  apply (list_elem_of_fmap_2 fst) in Hin. exact Hin.
Qed.

Lemma value_has_key d v : v ∈ PyDict.values d -> exists k, (k, v) ∈ d.
Proof.
  unfold PyDict.values. intros Hin.
  apply list_elem_of_fmap in Hin as [[k v'] [-> Hin]]. eauto.
Qed.

End PyDictFacts.

(** ** Enqueue and cancel *)

Section QueueAPI.
Variable clock : nat -> Z.

Lemma get_queue_update t t' f s :
  _get_queue t' (update_queue t f s)
  = if decide (t' = t) then f (_get_queue t' s) else _get_queue t' s.
Proof. destruct t, t'; reflexivity. Qed.

Lemma queue_player_result request s :
  exists position wait,
    result (queue_player clock request) s
    = Return {| is_queued := true;
                queue_position := position;
                estimated_wait_seconds := wait;
                status_preferred_opponent :=
                  req_preferred_opponent request |}.
Proof. eexists _, _. reflexivity. Qed.

Lemma queue_player_queue request s t :
  _get_queue t (exec (queue_player clock request) s)
  = if decide (t = req_preferred_opponent request)
    then PyDict.set (elo_bucket_of (req_player_elo request))
           (new_waiter clock request s) (_get_queue t s)
    else _get_queue t s.
Proof. destruct request as [a e [] lo hi], t; reflexivity. Qed.

Lemma queue_player_lookup request s :
  player_lookup (exec (queue_player clock request) s)
  = <[req_player request := elo_bucket_of (req_player_elo request)]>
      (player_lookup s).
Proof. destruct request as [a e [] lo hi]; reflexivity. Qed.

Lemma cancel_queue_absent address s :
  player_lookup s !! address = None ->
  cancel_queue address s = (Return false, s).
Proof. intros H. unfold cancel_queue, bind, gets. rewrite H. reflexivity. Qed.

Lemma cancel_queue_present address s elo_bucket :
  player_lookup s !! address = Some elo_bucket ->
  result (cancel_queue address) s = Return true
  /\ (forall t, _get_queue t (exec (cancel_queue address) s)
                = PyDict.pop elo_bucket (_get_queue t s))
  /\ player_lookup (exec (cancel_queue address) s)
     = delete address (player_lookup s).
Proof.
  intros H. unfold result, exec, cancel_queue, bind, gets. rewrite H.
  split; [reflexivity |]. split; [| reflexivity].
  intros []; reflexivity.
Qed.

Lemma fresh_enqueue_spec request s :
  fresh_enqueue request s = true ->
  player_lookup s !! req_player request = None
  /\ forall t, PyDict.get (elo_bucket_of (req_player_elo request))
                 (_get_queue t s) = None.
Proof.
  unfold fresh_enqueue, bucket_free, PyDict.contains.
  rewrite !andb_true_iff, bool_decide_eq_true.
  intros (Hl & (Hh & Ha) & Hy). split; [exact Hl |].
  intros []; simpl;
    [destruct (PyDict.get _ (human_queue s))
    |destruct (PyDict.get _ (ai_queue s))
    |destruct (PyDict.get _ (any_queue s))];
    simpl in *; congruence.
Qed.

Lemma queue_inv_init : queue_inv init.
Proof.
  split.
  - intros []; constructor.
  - intros [] k p; discriminate.
  - intros address k H. simpl in H. rewrite lookup_empty in H. discriminate.
  - intros [] t2 k [x Hx]; discriminate.
Qed.

Lemma queue_inv_enqueue request s :
  fresh_enqueue request s = true ->
  queue_inv s -> queue_inv (exec (queue_player clock request) s).
Proof.
  intros Hfresh [Hk Hi Hs Ho].
  apply fresh_enqueue_spec in Hfresh as [Hnew Hfree].
  set (b := elo_bucket_of (req_player_elo request)) in *.
  assert (forall t k, k <> b ->
            PyDict.get k (_get_queue t (exec (queue_player clock request) s))
            = PyDict.get k (_get_queue t s)) as Hother.
  { intros t k Hne. rewrite queue_player_queue. case_decide; [| reflexivity].
    apply get_set_ne. intros Heq. apply Hne. symmetry. exact Heq. }
  assert (forall t, is_Some (PyDict.get b
              (_get_queue t (exec (queue_player clock request) s))) ->
            t = req_preferred_opponent request) as Hat.
  { intros t. rewrite queue_player_queue. case_decide; [auto |].
    rewrite Hfree. intros [? ?]; discriminate. }
  split.
  - intros t. rewrite queue_player_queue. case_decide; [| apply Hk].
    apply NoDup_keys_set, Hk.
  - intros t k p. rewrite queue_player_lookup.
    destruct (decide (k = b)) as [-> | Hne].
    + intros Hget. pose proof (Hat t (ex_intro _ _ Hget)) as ->.
      rewrite queue_player_queue in Hget. rewrite decide_True in Hget by done.
      fold b in Hget. rewrite get_set_eq in Hget. injection Hget as <-.
      simpl. apply lookup_insert_eq.
    + rewrite Hother by done. intros Hget. apply Hi in Hget.
      rewrite lookup_insert_ne; [exact Hget |]. congruence.
  - intros address k. rewrite queue_player_lookup.
    destruct (decide (address = req_player request)) as [-> | Hne].
    + rewrite lookup_insert_eq. intros [= <-].
      exists (req_preferred_opponent request), (new_waiter clock request s).
      rewrite queue_player_queue, decide_True by done.
      split; [apply get_set_eq | reflexivity].
    + rewrite lookup_insert_ne by congruence. intros Hl.
      destruct (Hs _ _ Hl) as (t & p & Hget & Hp). exists t, p.
      split; [| exact Hp]. rewrite Hother; [exact Hget |].
      intros ->. rewrite Hfree in Hget. discriminate.
  - intros t1 t2 k H1 H2. destruct (decide (k = b)) as [-> | Hne].
    + rewrite (Hat _ H1), (Hat _ H2). reflexivity.
    + rewrite Hother in H1, H2 by done. eapply Ho; eauto.
Qed.

Lemma queue_inv_cancel address s :
  queue_inv s -> queue_inv (exec (cancel_queue address) s).
Proof.
  intros Hinv. destruct (player_lookup s !! address) as [b |] eqn:Hl.
  2:{ unfold exec. rewrite cancel_queue_absent by done. exact Hinv. }
  destruct Hinv as [Hk Hi Hs Ho].
  destruct (cancel_queue_present _ _ _ Hl) as (_ & Hq & Hl').
  assert (forall t k p,
            PyDict.get k (PyDict.pop b (_get_queue t s)) = Some p ->
            k <> b /\ PyDict.get k (_get_queue t s) = Some p) as Hpop.
  { intros t k p Hget. destruct (decide (k = b)) as [-> | Hne].
    - rewrite get_pop_eq in Hget. discriminate.
    - rewrite get_pop_ne in Hget by congruence. auto. }
  split.
  - intros t. rewrite Hq. apply NoDup_keys_pop, Hk.
  - intros t k p. rewrite Hq, Hl'. intros Hget.
    apply Hpop in Hget as [Hne Hget]. apply Hi in Hget.
    rewrite lookup_delete_ne; [exact Hget |]. congruence.
  - intros a k. rewrite Hl'. intros Hl2.
    apply lookup_delete_Some in Hl2 as [Hne Hl2].
    destruct (Hs _ _ Hl2) as (t & p & Hget & Hp). exists t, p.
    split; [| exact Hp]. rewrite Hq, get_pop_ne; [exact Hget |].
    intros <-. destruct (Hs _ _ Hl) as (t0 & p0 & Hget0 & Hp0).
    assert (t0 = t) as -> by (eapply Ho; eauto).
    congruence.
  - intros t1 t2 k. rewrite !Hq. intros [p1 H1] [p2 H2].
    apply Hpop in H1 as [_ H1]. apply Hpop in H2 as [_ H2].
    eapply Ho; eauto.
Qed.

Lemma queue_inv_run ops : forall s,
  all_fresh clock ops s = true -> queue_inv s -> queue_inv (run clock ops s).
Proof.
  induction ops as [| op ops IH]; intros s Hfresh Hinv; [exact Hinv |].
  simpl in Hfresh. apply andb_true_iff in Hfresh as [Hop Hrest].
  simpl. apply IH; [exact Hrest |].
  destruct op as [request | address]; simpl.
  - apply queue_inv_enqueue; assumption.
  - apply queue_inv_cancel; assumption.
Qed.

Lemma waits_in_true address queue :
  waits_in address queue = true
  <-> exists p, p ∈ PyDict.values queue /\ player_address p = address.
Proof.
  unfold waits_in. rewrite existsb_exists. split.
  - intros (p & Hin & Heq). exists p. split.
    + apply list_elem_of_In, Hin.
    + apply String.eqb_eq, Heq.
  - intros (p & Hin & Heq). exists p. split.
    + apply list_elem_of_In, Hin.
    + apply String.eqb_eq, Heq.
Qed.

Lemma queue_inv_value s t p :
  queue_inv s -> p ∈ PyDict.values (_get_queue t s) ->
  exists k, PyDict.get k (_get_queue t s) = Some p
            /\ player_lookup s !! player_address p = Some k.
Proof.
  intros Hinv Hin. apply value_has_key in Hin as [k Hin].
  apply elem_get in Hin; [| apply Hinv].
  exists k. split; [exact Hin |]. eapply inv_indexed; eauto.
Qed.

Lemma queue_inv_consistent s : queue_inv s -> index_consistent s.
Proof.
  intros Hinv. split.
  - intros address [k Hl].
    destruct (inv_stored _ Hinv _ _ Hl) as (t0 & p0 & Hget0 & Hp0).
    assert (forall t, waits_in address (_get_queue t s) = true <-> t = t0)
      as Hiff.
    { intros t. rewrite waits_in_true. split.
      - intros (p & Hin & Hp).
        destruct (queue_inv_value _ _ _ Hinv Hin) as (k' & Hget & Hl').
        rewrite Hp, Hl in Hl'. injection Hl' as <-.
        eapply inv_one_queue; eauto.
      - intros ->. exists p0. split; [| exact Hp0].
        apply get_Some_elem in Hget0.
        apply (list_elem_of_fmap_2 snd) in Hget0. exact Hget0. }
    assert (forall t, waits_in address (_get_queue t s)
                      = bool_decide (t = t0)) as Hdec.
    { intros t. destruct (waits_in address (_get_queue t s)) eqn:E.
      - apply Hiff in E. subst t. rewrite bool_decide_eq_true_2; done.
      - rewrite bool_decide_eq_false_2; [done |].
        intros Heq. apply Hiff in Heq. congruence. }
    unfold queues_holding, List.filter. rewrite !Hdec.
    destruct t0; reflexivity.
  - intros t p Hin.
    destruct (queue_inv_value _ _ _ Hinv Hin) as (k & _ & Hl). eauto.
Qed.

End QueueAPI.

(** C1 (as amended): for every sequence of enqueue and cancel operations
    from the empty service in which each enqueue is of an identity that
    is not in [player_lookup] and of a rating whose bucket key no queue
    occupies, the reverse index and the queues stay consistent: every
    indexed identity is the stored waiter in exactly one of the three
    queues and every stored waiter is indexed. *)
Theorem index_consistent_when_enqueues_fresh clock (ops : list Op) :
  all_fresh clock ops init = true ->
  index_consistent (run clock ops init).
Proof.
  intros Hfresh. apply queue_inv_consistent.
  apply queue_inv_run; [exact Hfresh | apply queue_inv_init].
Qed.

Lemma index_consistent_when_enqueues_fresh_witness :
  let ops := [Enqueue (request_of "A" 1000 HUMAN);
              Enqueue (request_of "B" 1100 ANY);
              Cancel "A";
              Enqueue (request_of "A" 1000 AI)] in
  all_fresh sample_clock ops init = true
  /\ index_consistent (run sample_clock ops init).
Proof.
  split; [vm_compute; reflexivity |].
  apply index_consistent_when_enqueues_fresh. vm_compute. reflexivity.
Defined.

(** C1 as stated fails on three sequences: a second arrival in an
    occupied bucket replaces the first waiter, who stays indexed; a queued
    identity that enqueues again is stored twice, and its cancel leaves
    the older entry unindexed; a cancel empties its bucket key in every
    queue, also where another player waits under it. *)
Lemma index_inconsistent_after_collisions :
  ~ index_consistent
      (run sample_clock
         [Enqueue (request_of "A" 1000 HUMAN);
          Enqueue (request_of "B" 1000 HUMAN)] init)
  /\ ~ index_consistent
         (run sample_clock
            [Enqueue (request_of "A" 1000 HUMAN);
             Enqueue (request_of "A" 1500 ANY);
             Cancel "A"] init)
  /\ ~ index_consistent
         (run sample_clock
            [Enqueue (request_of "A" 1000 HUMAN);
             Enqueue (request_of "X" 1000 ANY);
             Cancel "A"] init).
Proof.
  split; [| split].
  - intros [Hindex _]. specialize (Hindex "A").
    assert (length (queues_holding "A"
              (run sample_clock
                 [Enqueue (request_of "A" 1000 HUMAN);
                  Enqueue (request_of "B" 1000 HUMAN)] init)) = 1%nat) as H.
    { apply Hindex. vm_compute. eauto. }
    vm_compute in H. discriminate.
  - intros [_ Hqueues].
    destruct (Hqueues HUMAN
                (new_waiter sample_clock (request_of "A" 1000 HUMAN) init))
      as [k Hk].
    + vm_compute. apply elem_of_cons. left. reflexivity.
    + vm_compute in Hk. discriminate.
  - intros [Hindex _]. specialize (Hindex "X").
    assert (length (queues_holding "X"
              (run sample_clock
                 [Enqueue (request_of "A" 1000 HUMAN);
                  Enqueue (request_of "X" 1000 ANY);
                  Cancel "A"] init)) = 1%nat) as H.
    { apply Hindex. vm_compute. eauto. }
    vm_compute in H. discriminate.
Qed.

(** C2 (as amended): the service has no collision policy.  For any two
    enqueue requests whose ratings round to the same bucket key in the
    same queue category, the second enqueue succeeds and its waiter
    takes the place of the first one under that key: the queue gains no
    entry, and the first identity is still indexed under the key. *)
Theorem same_bucket_enqueue_overwrites clock
    (first second : MatchmakingRequest) (s : MatchmakingService) :
  elo_bucket_of (req_player_elo first)
  = elo_bucket_of (req_player_elo second) ->
  req_preferred_opponent first = req_preferred_opponent second ->
  let elo_bucket := elo_bucket_of (req_player_elo first) in
  let queue := _get_queue (req_preferred_opponent first) in
  let s1 := exec (queue_player clock first) s in
  let s2 := exec (queue_player clock second) s1 in
  (exists position wait,
      result (queue_player clock second) s1
      = Return {| is_queued := true; queue_position := position;
                  estimated_wait_seconds := wait;
                  status_preferred_opponent :=
                    req_preferred_opponent second |})
  /\ PyDict.get elo_bucket (queue s1) = Some (new_waiter clock first s)
  /\ PyDict.get elo_bucket (queue s2) = Some (new_waiter clock second s1)
  /\ PyDict.keys (queue s2) = PyDict.keys (queue s1)
  /\ player_lookup s2 !! req_player first = Some elo_bucket.
Proof.
  intros Hbucket Hpref. cbv zeta.
  split; [apply queue_player_result |].
  assert (PyDict.get (elo_bucket_of (req_player_elo first))
            (_get_queue (req_preferred_opponent first)
               (exec (queue_player clock first) s))
          = Some (new_waiter clock first s)) as Hfirst.
  { rewrite queue_player_queue, decide_True by done. apply get_set_eq. }
  split; [exact Hfirst |].
  rewrite !(queue_player_queue clock second), <- Hpref, decide_True by done.
  rewrite <- Hbucket.
  split; [apply get_set_eq |].
  split; [apply keys_set_present; rewrite Hfirst; eauto |].
  rewrite (queue_player_lookup clock second), <- Hbucket.
  destruct (decide (req_player second = req_player first)) as [-> | Hne].
  - apply lookup_insert_eq.
  - rewrite lookup_insert_ne by done.
    rewrite queue_player_lookup. apply lookup_insert_eq.
Qed.

Lemma same_bucket_enqueue_overwrites_witness :
  let s1 := exec (queue_player sample_clock (request_of "A" 1000 HUMAN)) init in
  let s2 := exec (queue_player sample_clock (request_of "B" 1049 HUMAN)) s1 in
  PyDict.get 1000 (human_queue s2)
  = Some (new_waiter sample_clock (request_of "B" 1049 HUMAN) s1)
  /\ PyDict.keys (human_queue s2) = PyDict.keys (human_queue s1).
Proof.
  destruct (same_bucket_enqueue_overwrites sample_clock
              (request_of "A" 1000 HUMAN) (request_of "B" 1049 HUMAN) init)
    as (_ & _ & Hsecond & Hkeys & _).
  - vm_compute. reflexivity.
  - reflexivity.
  - split; [exact Hsecond | exact Hkeys].
Defined.

(** C2 as stated fails: with ratings 1000 and 1000 in the HUMAN queue
    the second enqueue reports [is_queued = true], no error, and the
    first player no longer waits in the queue. *)
Lemma same_bucket_enqueue_loses_first_player :
  let s1 := exec (queue_player sample_clock (request_of "A" 1000 HUMAN)) init in
  let second := queue_player sample_clock (request_of "B" 1000 HUMAN) in
  waits_in "A" (human_queue s1) = true
  /\ result second s1
     = Return {| is_queued := true; queue_position := 1;
                 estimated_wait_seconds := 15;
                 status_preferred_opponent := HUMAN |}
  /\ waits_in "A" (human_queue (exec second s1)) = false
  /\ PyDict.values (human_queue (exec second s1))
     = [new_waiter sample_clock (request_of "B" 1000 HUMAN) s1].
Proof. vm_compute. repeat split. Qed.

(** C4 (as amended): the service has no duplicate-enqueue check.  An
    enqueue request whose identity is already in [player_lookup]
    succeeds like any other: it returns a status with [is_queued = true],
    stores its waiter under the bucket key of its rating in the queue of
    its preference, and points [player_lookup] at that key. *)
Theorem enqueue_of_queued_identity_succeeds clock
    (request : MatchmakingRequest) (s : MatchmakingService) :
  is_Some (player_lookup s !! req_player request) ->
  let elo_bucket := elo_bucket_of (req_player_elo request) in
  let s' := exec (queue_player clock request) s in
  (exists position wait,
      result (queue_player clock request) s
      = Return {| is_queued := true; queue_position := position;
                  estimated_wait_seconds := wait;
                  status_preferred_opponent :=
                    req_preferred_opponent request |})
  /\ PyDict.get elo_bucket (_get_queue (req_preferred_opponent request) s')
     = Some (new_waiter clock request s)
  /\ player_lookup s' !! req_player request = Some elo_bucket.
Proof.
  intros _. cbv zeta.
  split; [apply queue_player_result |].
  split.
  - rewrite queue_player_queue, decide_True by done. apply get_set_eq.
  - rewrite queue_player_lookup. apply lookup_insert_eq.
Qed.

Lemma enqueue_of_queued_identity_succeeds_witness :
  let s1 := exec (queue_player sample_clock (request_of "A" 1000 HUMAN)) init in
  let s2 := exec (queue_player sample_clock (request_of "A" 1500 HUMAN)) s1 in
  is_Some (player_lookup s1 !! "A")
  /\ PyDict.get 1500 (human_queue s2)
     = Some (new_waiter sample_clock (request_of "A" 1500 HUMAN) s1)
  /\ player_lookup s2 !! "A" = Some 1500.
Proof.
  assert (is_Some (player_lookup
            (exec (queue_player sample_clock (request_of "A" 1000 HUMAN)) init)
            !! "A")) as Hqueued by (vm_compute; eauto).
  split; [exact Hqueued |].
  destruct (enqueue_of_queued_identity_succeeds sample_clock
              (request_of "A" 1500 HUMAN) _ Hqueued) as (_ & Hstored & Hindex).
  split; [exact Hstored | exact Hindex].
Defined.

(** C4 as stated fails: identity A, already queued in HUMAN at 1000,
    enqueues again in ANY at 1500; the call reports [is_queued = true]
    and A then waits in both queues. *)
Lemma duplicate_enqueue_accepted :
  let s1 := exec (queue_player sample_clock (request_of "A" 1000 HUMAN)) init in
  let again := queue_player sample_clock (request_of "A" 1500 ANY) in
  player_lookup s1 !! "A" = Some 1000
  /\ result again s1
     = Return {| is_queued := true; queue_position := 1;
                 estimated_wait_seconds := 15;
                 status_preferred_opponent := ANY |}
  /\ queues_holding "A" (exec again s1) = [HUMAN; ANY].
Proof. vm_compute. repeat split. Qed.

(** Cancel answers [true] exactly when the identity is indexed, and a
    second cancel right after always answers [false]. *)
Lemma cancel_queue_returns (address : string) (s : MatchmakingService) :
  result (cancel_queue address) s
  = Return (bool_decide (is_Some (player_lookup s !! address)))
  /\ result (cancel_queue address) (exec (cancel_queue address) s)
     = Return false.
Proof.
  destruct (player_lookup s !! address) as [b |] eqn:Hl.
  - destruct (cancel_queue_present _ _ _ Hl) as (Hres & _ & Hl').
    split; [rewrite Hres, bool_decide_eq_true_2; eauto |].
    unfold result. rewrite cancel_queue_absent; [reflexivity |].
    rewrite Hl'. apply lookup_delete_eq.
  - unfold result, exec. rewrite !cancel_queue_absent by done.
    split; [| reflexivity].
    rewrite bool_decide_eq_false_2; [reflexivity |].
    intros [? ?]; discriminate.
Qed.

(** Cancel leaves every entry under another bucket key in place. *)
Lemma cancel_queue_other_buckets (address : string) (s : MatchmakingService)
    (elo_bucket k : Z) (t : OpponentType) :
  player_lookup s !! address = Some elo_bucket -> k <> elo_bucket ->
  PyDict.get k (_get_queue t (exec (cancel_queue address) s))
  = PyDict.get k (_get_queue t s).
Proof.
  intros Hl Hne. destruct (cancel_queue_present _ _ _ Hl) as (_ & Hq & _).
  rewrite Hq. apply get_pop_ne. congruence.
Qed.

(** C5: cancel is to remove only the cancelling player's entry.  Here A
    waits in HUMAN and X in ANY, both under bucket key 1000; [cancel A]
    answers [true], and X's entry is gone from the ANY queue although X
    is still indexed. *)
Theorem cancel_removes_waiter_sharing_bucket :
  let s := run sample_clock
             [Enqueue (request_of "A" 1000 HUMAN);
              Enqueue (request_of "X" 1000 ANY)] init in
  let s' := exec (cancel_queue "A") s in
  waits_in "X" (any_queue s) = true
  /\ result (cancel_queue "A") s = Return true
  /\ waits_in "X" (any_queue s') = false
  /\ any_queue s' = []
  /\ player_lookup s' !! "X" = Some 1000.
Proof. vm_compute. repeat split. Qed.

(** ** The pairing tick *)

Section Tick.
Variable clock : nat -> Z.

Lemma matches_created_refl s : matches_created s s [].
Proof. unfold matches_created. rewrite app_nil_r. auto. Qed.

Lemma matches_created_trans s1 s2 s3 c1 c2 :
  matches_created s1 s2 c1 -> matches_created s2 s3 c2 ->
  matches_created s1 s3 (c1 ++ c2).
Proof.
  unfold matches_created.
  intros (-> & -> & -> & -> & H1) (-> & -> & -> & -> & H2).
  rewrite H2, H1, app_assoc. auto.
Qed.

Lemma matches_created_clock s n : matches_created s (set_clock_reads n s) [].
Proof. unfold matches_created. simpl. rewrite app_nil_r. auto. Qed.

Lemma wait_time_run p s :
  wait_time clock p s
  = (Return ((clock (clock_reads s) - queued_at p) # 1000000),
     set_clock_reads (S (clock_reads s)) s).
Proof. reflexivity. Qed.

Lemma _create_match_spec p1 p2 s :
  exists m s',
    _create_match clock p1 p2 false None s = (Return tt, s')
    /\ matches_created s s' [m]
    /\ active_games s' = PyDict.set (game_id m) m (active_games s)
    /\ is_bot_match m = false
    /\ bot_level m = None
    /\ (player1 m, player2 m, player1_elo m, player2_elo m)
       = if Z.geb (elo p1) (elo p2)
         then (player_address p1, player_address p2,
               elo p1,
               if String.eqb (player_address p2) (player_address p2)
               then elo p2 else elo p1)
         else (player_address p2, player_address p1,
               (if String.eqb (player_address p2) (player_address p1)
                then elo p1 else elo p2),
               (if String.eqb (player_address p1) (player_address p2)
                then elo p2 else elo p1)).
Proof.
  unfold _create_match. destruct (Z.geb (elo p1) (elo p2)).
  - eexists _, _. split; [reflexivity |]. simpl.
    rewrite String.eqb_refl.
    repeat split.
  - eexists _, _. split; [reflexivity |]. repeat split.
Qed.

Lemma find_partner_Some player range to_remove items other :
  find_partner player range to_remove items = Some other ->
  other <> player /\ (other ∉ to_remove) /\ (other ∈ PyDict.values items)
  /\ Z.abs (elo other - elo player) <= range.
Proof.
  induction items as [| [k q] items IH]; simpl; [discriminate |].
  destruct (bool_decide (q = player)) eqn:E1; simpl.
  { intros H. destruct (IH H) as (? & ? & ? & ?). repeat split; auto.
    apply elem_of_cons. right. assumption. }
  destruct (bool_decide (q ∈ to_remove)) eqn:E2; simpl.
  { intros H. destruct (IH H) as (? & ? & ? & ?). repeat split; auto.
    apply elem_of_cons. right. assumption. }
  destruct (Z.leb_spec (Z.abs (elo q - elo player)) range) as [Hle | Hgt].
  - intros [= <-]. apply bool_decide_eq_false in E1, E2.
    repeat split; auto. apply elem_of_cons. left. reflexivity.
  - intros H. destruct (IH H) as (? & ? & ? & ?). repeat split; auto.
    apply elem_of_cons. right. assumption.
Qed.

Lemma match_step_spec qt snapshot entry to_remove s :
  NoDup to_remove -> entry ∈ snapshot ->
  exists added created s',
    match_step clock qt snapshot entry to_remove s
    = (Return (to_remove ++ added), s')
    /\ matches_created s s' created
    /\ NoDup (to_remove ++ added)
    /\ (forall p, p ∈ added -> p ∈ PyDict.values snapshot)
    /\ consumed_by created ≡ₚ player_address <$> added.
Proof.
  intros Hnd Hin. destruct entry as [k player]. unfold match_step. simpl.
  destruct (decide (player ∈ to_remove)) as [Hp | Hp].
  { rewrite bool_decide_eq_true_2 by done.
    exists [], [], s. rewrite app_nil_r.
    split; [reflexivity |]. split; [apply matches_created_refl |].
    split; [done |]. split; [intros p Hx; inversion Hx | done]. }
  rewrite bool_decide_eq_false_2 by done.
  unfold bind at 1. rewrite wait_time_run.
  set (s1 := set_clock_reads (S (clock_reads s)) s).
  assert (matches_created s s1 []) as Hs1 by apply matches_created_clock.
  destruct (find_partner player _ to_remove snapshot) as [other |] eqn:Hfp.
  - apply find_partner_Some in Hfp as (Hne & Hnot & Hval & _).
    destruct (_create_match_spec player other s1)
      as (m & s2 & Hrun & Hmc & _ & Hbot & _ & Hsides).
    unfold bind at 1. unfold bind at 1. rewrite Hrun. unfold ret at 1.
    rewrite (bool_decide_eq_true_2 (player ∈ to_remove ++ [player; other]))
      by (apply elem_of_app; right; apply elem_of_cons; left; reflexivity).
    rewrite andb_false_r.
    exists [player; other], [m], s2.
    split; [reflexivity |].
    split; [apply (matches_created_trans _ _ _ [] [m] Hs1 Hmc) |].
    split.
    { apply NoDup_app. split; [done |]. split.
      - intros x Hx Hx'. apply elem_of_cons in Hx' as [-> | Hx']; [done |].
        apply list_elem_of_singleton in Hx' as ->. done.
      - apply NoDup_cons. split; [| apply NoDup_singleton].
        intros Hx. apply list_elem_of_singleton in Hx. congruence. }
    split.
    { intros p Hx. apply elem_of_cons in Hx as [-> | Hx].
      - apply (list_elem_of_fmap_2 snd) in Hin. exact Hin.
      - apply list_elem_of_singleton in Hx as ->. exact Hval. }
    unfold consumed_by, consumed. simpl. rewrite Hbot. simpl.
    destruct (Z.geb (elo player) (elo other));
      injection Hsides as -> -> _ _; [reflexivity | apply Permutation_swap].
  - unfold bind at 1. unfold ret at 1.
    rewrite (bool_decide_eq_false_2 (player ∈ to_remove)) by done.
    destruct (decide (qt = ANY)) as [-> | Hqt].
    2:{ rewrite bool_decide_eq_false_2 by done. simpl.
        exists [], [], s1. rewrite app_nil_r.
        split; [reflexivity |]. split; [exact Hs1 |].
        split; [done |]. split; [intros p Hx; inversion Hx | done]. }
    rewrite bool_decide_eq_true_2 by done. simpl.
    unfold bind at 1. rewrite wait_time_run.
    set (s2 := set_clock_reads (S (clock_reads s1)) s1).
    assert (matches_created s s2 []) as Hs2
      by apply (matches_created_trans _ _ _ [] [] Hs1), matches_created_clock.
    destruct (Qgtb _ (inject_Z 10)).
    + destruct (_create_bot_match_spec clock player s2)
        as (m & Hrun & Hp1 & Hbot & _).
      unfold bind at 1. rewrite Hrun.
      exists [player], [m]. eexists.
      split; [reflexivity |].
      split; [repeat split |].
      split.
      { apply NoDup_app. split; [done |]. split; [| apply NoDup_singleton].
        intros x Hx Hx'. apply list_elem_of_singleton in Hx' as ->. done. }
      split.
      { intros p Hx. apply list_elem_of_singleton in Hx as ->.
        apply (list_elem_of_fmap_2 snd) in Hin. exact Hin. }
      unfold consumed_by, consumed. simpl. rewrite Hbot, Hp1. reflexivity.
    + exists [], [], s2. rewrite app_nil_r.
      split; [reflexivity |]. split; [exact Hs2 |].
      split; [done |]. split; [intros p Hx; inversion Hx | done].
Qed.

Lemma match_loop_spec qt snapshot items : forall to_remove s,
  NoDup to_remove ->
  (forall e, e ∈ items -> e ∈ snapshot) ->
  exists added created s',
    for_each items (match_step clock qt snapshot) to_remove s
    = (Return (to_remove ++ added), s')
    /\ matches_created s s' created
    /\ NoDup (to_remove ++ added)
    /\ (forall p, p ∈ added -> p ∈ PyDict.values snapshot)
    /\ consumed_by created ≡ₚ player_address <$> added.
Proof.
  induction items as [| entry items IH]; intros to_remove s Hnd Hsub.
  { exists [], [], s. rewrite app_nil_r.
    split; [reflexivity |]. split; [apply matches_created_refl |].
    split; [done |]. split; [intros p Hx; inversion Hx | done]. }
  simpl.
  destruct (match_step_spec qt snapshot entry to_remove s Hnd)
    as (a1 & c1 & s1 & Hrun1 & Hmc1 & Hnd1 & Hv1 & Hc1).
  { apply Hsub, elem_of_cons. left. reflexivity. }
  destruct (IH (to_remove ++ a1) s1 Hnd1)
    as (a2 & c2 & s2 & Hrun2 & Hmc2 & Hnd2 & Hv2 & Hc2).
  { intros e He. apply Hsub, elem_of_cons. right. exact He. }
  unfold bind at 1. rewrite Hrun1, Hrun2.
  exists (a1 ++ a2), (c1 ++ c2), s2. rewrite app_assoc.
  split; [reflexivity |].
  split; [eapply matches_created_trans; eauto |].
  split; [exact Hnd2 |].
  split.
  { intros p Hx. apply elem_of_app in Hx as [Hx | Hx]; auto. }
  unfold consumed_by in *. rewrite !fmap_app, concat_app, Hc1, Hc2.
  reflexivity.
Qed.

Lemma matches_created_queue s s' created t :
  matches_created s s' created -> _get_queue t s' = _get_queue t s.
Proof. intros (Hh & Ha & Hy & _). destruct t; simpl; congruence. Qed.

Lemma remove_matched_spec queue to_remove : forall s,
  exists s',
    remove_matched queue to_remove s = (Return tt, s')
    /\ match_log s' = match_log s
    /\ active_games s' = active_games s
    /\ (forall t, t <> queue -> _get_queue t s' = _get_queue t s).
Proof.
  unfold remove_matched.
  induction to_remove as [| p to_remove IH]; intros s.
  { exists s. repeat split. }
  simpl. unfold bind at 1. unfold bind at 1. unfold modify at 1 2.
  match goal with |- context [for_each _ _ tt ?s0] =>
    destruct (IH s0) as (s' & Hrun & Hlog & Hgames & Hq) end.
  exists s'. split; [exact Hrun |].
  split; [rewrite Hlog; destruct queue; reflexivity |].
  split; [rewrite Hgames; destruct queue; reflexivity |].
  intros t Hne. rewrite (Hq t Hne).
  destruct t, queue; solve [reflexivity | congruence].
Qed.

Lemma _match_players_spec queue queue_type s :
  exists to_remove created s',
    _match_players clock queue queue_type s = (Return tt, s')
    /\ match_log s' = match_log s ++ created
    /\ (forall t, t <> queue -> _get_queue t s' = _get_queue t s)
    /\ NoDup to_remove
    /\ (forall p, p ∈ to_remove -> p ∈ PyDict.values (_get_queue queue s))
    /\ consumed_by created ≡ₚ player_address <$> to_remove.
Proof.
  unfold _match_players. unfold bind at 1. unfold gets at 1.
  destruct (match_loop_spec queue_type (PyDict.items (_get_queue queue s))
              (PyDict.items (_get_queue queue s)) [] s)
    as (added & created & s1 & Hrun & Hmc & Hnd & Hv & Hc);
    [constructor | auto |].
  unfold bind at 1. rewrite Hrun. simpl in *.
  destruct (remove_matched_spec queue added s1)
    as (s2 & Hrun2 & Hlog & _ & Hq).
  exists added, created, s2. split; [exact Hrun2 |].
  split; [rewrite Hlog; apply Hmc |].
  split.
  { intros t Hne. rewrite (Hq t Hne).
    eapply matches_created_queue; eauto. }
  auto.
Qed.

Lemma bot_loop_spec items : forall to_remove s,
  exists created s',
    for_each items
      (fun entry to_remove =>
         bind (_create_bot_match clock entry.2)
           (fun _ => ret (to_remove ++ [entry.2])))
      to_remove s
    = (Return (to_remove ++ PyDict.values items), s')
    /\ matches_created s s' created
    /\ consumed_by created = player_address <$> PyDict.values items.
Proof.
  induction items as [| [k p] items IH]; intros to_remove s.
  { exists [], s. simpl. rewrite app_nil_r.
    split; [reflexivity |]. split; [apply matches_created_refl | done]. }
  simpl. unfold bind at 1. unfold bind at 1.
  destruct (_create_bot_match_spec clock p s) as (m & Hrun & Hp1 & Hbot & _).
  rewrite Hrun. unfold ret at 1.
  match goal with |- context [for_each _ _ ?tr ?s0] =>
    destruct (IH tr s0) as (created & s' & Hloop & Hmc & Hc) end.
  exists (m :: created), s'. rewrite Hloop, <- app_assoc.
  split; [reflexivity |].
  split.
  { refine (matches_created_trans _ _ _ [m] created _ Hmc).
    repeat split. }
  change (consumed_by (m :: created))
    with (consumed m ++ consumed_by created).
  rewrite Hc. unfold consumed. rewrite Hbot, Hp1. reflexivity.
Qed.

Lemma _match_ai_players_spec s :
  exists created s',
    _match_ai_players clock s = (Return tt, s')
    /\ match_log s' = match_log s ++ created
    /\ consumed_by created = player_address <$> PyDict.values (ai_queue s).
Proof.
  unfold _match_ai_players. unfold bind at 1. unfold gets at 1.
  destruct (bot_loop_spec (PyDict.items (ai_queue s)) [] s)
    as (created & s1 & Hrun & Hmc & Hc).
  unfold bind at 1. rewrite Hrun. simpl.
  destruct (remove_matched_spec AI (PyDict.values (ai_queue s)) s1)
    as (s2 & Hrun2 & Hlog & _).
  exists created, s2. split; [exact Hrun2 |].
  split; [rewrite Hlog; apply Hmc | exact Hc].
Qed.

Lemma consumed_by_app c1 c2 :
  consumed_by (c1 ++ c2) = consumed_by c1 ++ consumed_by c2.
Proof. unfold consumed_by. rewrite fmap_app, concat_app. reflexivity. Qed.

Lemma NoDup_fmap_inj_on {A B} (f : A -> B) (l : list A) (x y : A) :
  NoDup (f <$> l) -> x ∈ l -> y ∈ l -> f x = f y -> x = y.
Proof.
  induction l as [| z l IH]; csimpl; intros Hnd Hx Hy Heq.
  { inversion Hx. }
  apply NoDup_cons in Hnd as [Hz Hnd].
  apply elem_of_cons in Hx as [-> | Hx];
    apply elem_of_cons in Hy as [-> | Hy]; auto.
  - exfalso. apply Hz. rewrite Heq. apply list_elem_of_fmap_2, Hy.
  - exfalso. apply Hz. rewrite <- Heq. apply list_elem_of_fmap_2, Hx.
Qed.

Lemma NoDup_consumed_elem created m :
  NoDup (consumed_by created) -> m ∈ created -> NoDup (consumed m).
Proof.
  induction created as [| m' created IH]; intros Hnd Hin.
  { inversion Hin. }
  change (consumed_by (m' :: created))
    with (consumed m' ++ consumed_by created) in Hnd.
  apply NoDup_app in Hnd as (Hm' & _ & Hrest).
  apply elem_of_cons in Hin as [-> | Hin]; auto.
Qed.

Lemma _process_matches_spec s :
  NoDup (player_address <$> waiters s) ->
  exists created s',
    _process_matches clock s = (Return tt, s')
    /\ match_log s' = match_log s ++ created
    /\ NoDup (consumed_by created)
    /\ (forall a, a ∈ consumed_by created ->
                  a ∈ player_address <$> waiters s).
Proof.
  intros Hnd. unfold _process_matches.
  destruct (_match_players_spec HUMAN HUMAN s)
    as (tr1 & c1 & s1 & Hrun1 & Hlog1 & Hq1 & Hnd1 & Hv1 & Hc1).
  destruct (_match_players_spec ANY ANY s1)
    as (tr2 & c2 & s2 & Hrun2 & Hlog2 & Hq2 & Hnd2 & Hv2 & Hc2).
  destruct (_match_ai_players_spec s2) as (c3 & s3 & Hrun3 & Hlog3 & Hc3).
  unfold bind. rewrite Hrun1, Hrun2, Hrun3.
  rewrite (Hq1 ANY) in Hv2 by done.
  assert (ai_queue s2 = ai_queue s) as Hai.
  { change (_get_queue AI s2 = _get_queue AI s).
    rewrite (Hq2 AI), (Hq1 AI) by done. reflexivity. }
  rewrite Hai in Hc3. simpl in Hv1, Hv2.
  set (tr3 := PyDict.values (ai_queue s)) in *.
  assert (NoDup (waiters s)) as Hw by (eapply NoDup_fmap_1; eauto).
  unfold waiters in Hnd, Hw. fold tr3 in Hnd, Hw.
  pose proof Hw as Hw'.
  apply NoDup_app in Hw' as (_ & Hdisj1 & Hw').
  apply NoDup_app in Hw' as (_ & Hdisj2 & Hnd3).
  assert (forall p, p ∈ tr1 ++ tr2 ++ tr3 -> p ∈ waiters s) as Hsub.
  { intros p Hp. unfold waiters. fold tr3.
    rewrite !elem_of_app in Hp. rewrite !elem_of_app.
    destruct Hp as [Hp | [Hp | Hp]]; auto. }
  assert (NoDup (tr1 ++ tr2 ++ tr3)) as Hndtr.
  { apply NoDup_app. split; [exact Hnd1 |]. split.
    - intros p Hp1 Hp2. apply (Hdisj1 p (Hv1 p Hp1)).
      rewrite elem_of_app in Hp2. rewrite elem_of_app.
      destruct Hp2 as [Hp2 | Hp2]; auto.
    - apply NoDup_app. split; [exact Hnd2 |]. split; [| exact Hnd3].
      intros p Hp2 Hp3. exact (Hdisj2 p (Hv2 p Hp2) Hp3). }
  assert (consumed_by (c1 ++ c2 ++ c3)
          ≡ₚ player_address <$> (tr1 ++ tr2 ++ tr3)) as Hperm.
  { rewrite !consumed_by_app, !fmap_app, Hc1, Hc2, Hc3. reflexivity. }
  exists (c1 ++ c2 ++ c3), s3. split; [reflexivity |].
  split; [rewrite Hlog3, Hlog2, Hlog1, <- !app_assoc; reflexivity |].
  split.
  - rewrite Hperm. apply NoDup_fmap_2_strong; [| exact Hndtr].
    intros x y Hx Hy. apply (NoDup_fmap_inj_on player_address (waiters s));
      auto.
  - intros a. rewrite Hperm. intros Ha.
    apply list_elem_of_fmap in Ha as (p & -> & Hp).
    apply list_elem_of_fmap_2, Hsub, Hp.
Qed.
End Tick.

(** C3 (as amended): for every queue state at tick start in which the
    waiters stored in the three queues have pairwise distinct identities,
    a pairing tick completes, no identity is consumed by more than one
    of the decisions it creates, and no decision between two waiters has
    the same identity on both sides. *)
Theorem tick_consumes_each_identity_once clock (s : MatchmakingService) :
  NoDup (player_address <$> waiters s) ->
  exists created : list MatchResult,
    result (_process_matches clock) s = Return tt
    /\ match_log (exec (_process_matches clock) s) = match_log s ++ created
    /\ NoDup (consumed_by created)
    /\ (forall m, m ∈ created -> is_bot_match m = false ->
                  player1 m <> player2 m).
Proof.
  intros Hnd.
  destruct (_process_matches_spec clock s Hnd)
    as (created & s' & Hrun & Hlog & Honce & _).
  exists created. unfold result, exec. rewrite Hrun.
  split; [reflexivity |]. split; [exact Hlog |]. split; [exact Honce |].
  intros m Hm Hbot Heq.
  pose proof (NoDup_consumed_elem _ _ Honce Hm) as Hsides.
  unfold consumed in Hsides. rewrite Hbot, Heq in Hsides.
  apply NoDup_cons in Hsides as [Hsides _]. apply Hsides.
  apply elem_of_cons. left. reflexivity.
Qed.

Lemma tick_consumes_each_identity_once_witness :
  let s := run sample_clock
             [Enqueue (request_of "A" 1000 HUMAN);
              Enqueue (request_of "B" 1100 HUMAN);
              Enqueue (request_of "C" 1500 ANY);
              Enqueue (request_of "D" 2000 AI)] init in
  NoDup (player_address <$> waiters s)
  /\ exists created,
       match_log (exec (_process_matches sample_clock) s)
       = match_log s ++ created
       /\ NoDup (consumed_by created).
Proof.
  cbv zeta.
  assert (NoDup (player_address <$>
                 waiters (run sample_clock
                            [Enqueue (request_of "A" 1000 HUMAN);
                             Enqueue (request_of "B" 1100 HUMAN);
                             Enqueue (request_of "C" 1500 ANY);
                             Enqueue (request_of "D" 2000 AI)] init)))
    as Hdistinct.
  { apply (bool_decide_unpack _). vm_compute. exact I. }
  split; [exact Hdistinct |].
  destruct (tick_consumes_each_identity_once sample_clock _ Hdistinct)
    as (created & _ & Hlog & Honce & _).
  exists created. split; [exact Hlog | exact Honce].
Defined.

(** C3 as stated fails on reachable queue states.  Identity A enqueued
    twice in HUMAN, at 1000 and at 1150, is paired with itself by the
    tick; identity A waiting in HUMAN and in AI is consumed by two
    decisions of one tick. *)
Lemma tick_pairs_identity_twice :
  (let s := run sample_clock
              [Enqueue (request_of "A" 1000 HUMAN);
               Enqueue (request_of "A" 1150 HUMAN)] init in
   match_log (exec (_process_matches sample_clock) s)
   = [ {| player1 := "A"; player2 := "A";
          player1_elo := 1000; player2_elo := 1150; game_id := 123;
          is_bot_match := false; bot_level := None |} ])
  /\ (let s := run sample_clock
                 [Enqueue (request_of "A" 1000 HUMAN);
                  Enqueue (request_of "B" 1100 HUMAN);
                  Enqueue (request_of "A" 1500 AI)] init in
      consumed_by (match_log (exec (_process_matches sample_clock) s))
      = ["B"; "A"; "A"]).
Proof. split; vm_compute; reflexivity. Qed.

(** C6: every pairing is to get a session id that no live session has
    and to be in the registry when the tick returns.  Four waiters in
    HUMAN at 1000, 1100, 1200 and 1300, a clock that advances one
    microsecond per reading: the tick creates two pairings, both get
    game id 123, and [active_games] holds only the second one. *)
Theorem same_tick_pairings_share_game_id :
  let s := run sample_clock
             [Enqueue (request_of "A" 1000 HUMAN);
              Enqueue (request_of "B" 1100 HUMAN);
              Enqueue (request_of "C" 1200 HUMAN);
              Enqueue (request_of "D" 1300 HUMAN)] init in
  let s' := exec (_process_matches sample_clock) s in
  let first := {| player1 := "B"; player2 := "A";
                  player1_elo := 1100; player2_elo := 1000; game_id := 123;
                  is_bot_match := false; bot_level := None |} in
  let second := {| player1 := "D"; player2 := "C";
                   player1_elo := 1300; player2_elo := 1200; game_id := 123;
                   is_bot_match := false; bot_level := None |} in
  active_games s = []
  /\ match_log s' = [first; second]
  /\ game_id first = game_id second
  /\ active_games s' = [(123, second)]
  /\ human_queue s' = [].
Proof. vm_compute. repeat split. Qed.

(** ** Two waiters in range *)

Section Scenario.
Variable clock : nat -> Z.

Lemma find_partner_second pA pB kA kB w :
  pB <> pA -> Z.abs (elo pB - elo pA) <= 200 ->
  find_partner pA (expanded_range w) [] [(kA, pA); (kB, pB)] = Some pB.
Proof.
  intros Hne Hrange. simpl.
  rewrite (bool_decide_eq_true_2 (pA = pA)) by done. simpl.
  rewrite (bool_decide_eq_false_2 (pB = pA)) by done.
  simpl.
  pose proof (expanded_range_at_least_base w) as Hbase.
  unfold ELO_RANGE in Hbase.
  destruct (Z.leb_spec (Z.abs (elo pB - elo pA)) (expanded_range w));
    [reflexivity | lia].
Qed.

Lemma match_step_pairs kA kB pA pB s :
  pB <> pA -> Z.abs (elo pB - elo pA) <= 200 ->
  exists m s',
    match_step clock HUMAN [(kA, pA); (kB, pB)] (kA, pA) [] s
    = (Return [pA; pB], s')
    /\ _create_match clock pA pB false None
         (set_clock_reads (S (clock_reads s)) s) = (Return tt, s')
    /\ matches_created s s' [m]
    /\ active_games s' = PyDict.set (game_id m) m (active_games s).
Proof.
  intros Hne Hrange. unfold match_step. cbn [snd].
  rewrite (bool_decide_eq_false_2 (pA ∈ [])) by apply not_elem_of_nil.
  unfold bind at 1. rewrite wait_time_run.
  rewrite find_partner_second by done.
  destruct (_create_match_spec clock pA pB
              (set_clock_reads (S (clock_reads s)) s))
    as (m & s2 & Hrun & Hmc & Hgames & _).
  unfold bind at 1. unfold bind at 1. rewrite Hrun. unfold ret at 1.
  exists m, s2. split; [reflexivity |]. split; [reflexivity |].
  split; [| exact Hgames].
  apply (matches_created_trans _ _ _ [] [m] (matches_created_clock _ _) Hmc).
Qed.

Lemma match_step_skips qt snapshot k p to_remove s :
  p ∈ to_remove ->
  match_step clock qt snapshot (k, p) to_remove s = (Return to_remove, s).
Proof.
  intros Hin. unfold match_step. cbn [snd].
  rewrite bool_decide_eq_true_2 by done. reflexivity.
Qed.

Lemma pop_both {V} (kA kB : Z) (vA vB : V) :
  kA <> kB -> PyDict.pop kB (PyDict.pop kA [(kA, vA); (kB, vB)]) = [].
Proof.
  intros Hne. simpl. rewrite Z.eqb_refl.
  destruct (Z.eqb_spec kA kB); [contradiction |].
  simpl. rewrite Z.eqb_refl. reflexivity.
Qed.

Lemma _match_players_empty queue queue_type s :
  _get_queue queue s = [] ->
  _match_players clock queue queue_type s = (Return tt, s).
Proof.
  intros Hq. unfold _match_players, bind, gets. rewrite Hq. reflexivity.
Qed.

Lemma _match_ai_players_empty s :
  ai_queue s = [] -> _match_ai_players clock s = (Return tt, s).
Proof.
  intros Hq. unfold _match_ai_players, bind, gets. rewrite Hq. reflexivity.
Qed.

Lemma tick_pairs_two s pA pB :
  human_queue s
  = [(elo_bucket_of (elo pA), pA); (elo_bucket_of (elo pB), pB)] ->
  any_queue s = [] -> ai_queue s = [] ->
  elo_bucket_of (elo pA) <> elo_bucket_of (elo pB) ->
  Z.abs (elo pB - elo pA) <= 200 ->
  exists m s1 s',
    _create_match clock pA pB false None
      (set_clock_reads (S (clock_reads s)) s) = (Return tt, s1)
    /\ match_log s1 = match_log s ++ [m]
    /\ _process_matches clock s = (Return tt, s')
    /\ human_queue s' = []
    /\ player_lookup s'
       = delete (player_address pB)
           (delete (player_address pA) (player_lookup s))
    /\ match_log s' = match_log s ++ [m]
    /\ active_games s' = PyDict.set (game_id m) m (active_games s).
Proof.
  intros Hh Hy Ha Hbucket Hrange.
  assert (pB <> pA) as Hne by congruence.
  destruct (match_step_pairs (elo_bucket_of (elo pA))
              (elo_bucket_of (elo pB)) pA pB s Hne Hrange)
    as (m & s1 & Hstep & Hmk & (Hh1 & Ha1 & Hy1 & Hl1 & Hlog1) & Hgames1).
  exists m, s1. eexists.
  split; [exact Hmk |]. split; [exact Hlog1 |].
  unfold _process_matches. unfold bind at 1.
  unfold _match_players at 1. unfold bind at 1. unfold gets at 1.
  cbn [_get_queue]. rewrite Hh. unfold PyDict.items.
  unfold bind at 1. cbn [for_each].
  unfold bind at 1. rewrite Hstep.
  unfold bind at 1. rewrite match_step_skips
    by (apply elem_of_cons; right; apply elem_of_cons; left; reflexivity).
  unfold ret at 1.
  unfold remove_matched. cbn [for_each]. unfold bind, modify, ret.
  cbn [update_queue].
  rewrite _match_players_empty by (simpl; congruence).
  rewrite _match_ai_players_empty by (simpl; congruence).
  split; [reflexivity |]. simpl.
  rewrite Hh1, Hh, pop_both by done.
  rewrite Hl1, Hlog1, Hgames1. auto.
Qed.

Lemma two_enqueued (first second : MatchmakingRequest) :
  req_preferred_opponent first = HUMAN ->
  req_preferred_opponent second = HUMAN ->
  elo_bucket_of (req_player_elo first)
  <> elo_bucket_of (req_player_elo second) ->
  let s1 := exec (queue_player clock first) init in
  let s := run clock [Enqueue first; Enqueue second] init in
  human_queue s
  = [(elo_bucket_of (req_player_elo first), new_waiter clock first init);
     (elo_bucket_of (req_player_elo second), new_waiter clock second s1)]
  /\ any_queue s = [] /\ ai_queue s = []
  /\ player_lookup s
     = <[req_player second := elo_bucket_of (req_player_elo second)]>
         (<[req_player first := elo_bucket_of (req_player_elo first)]> ∅)
  /\ match_log s = [] /\ active_games s = [].
Proof.
  intros H1 H2 Hbucket.
  destruct first as [a ea ta loa hia], second as [b eb tb lob hib].
  simpl in *. subst ta tb. unfold run, step, exec. simpl.
  destruct (Z.eqb_spec (elo_bucket_of eb) (elo_bucket_of ea));
    [congruence |].
  repeat split.
Qed.

Lemma lookup_emptied (a b : string) (ka kb : Z) :
  delete b (delete a (<[b := kb]> (<[a := ka]> (∅ : gmap string Z)))) = ∅.
Proof.
  apply map_eq. intros i. rewrite lookup_empty.
  destruct (decide (i = b)) as [-> | Hb]; [apply lookup_delete_eq |].
  rewrite lookup_delete_ne by done.
  destruct (decide (i = a)) as [-> | Ha]; [apply lookup_delete_eq |].
  rewrite lookup_delete_ne, !lookup_insert_ne by done.
  apply lookup_empty.
Qed.

End Scenario.

(** C7 (as amended): if two players with HUMAN preference, distinct
    identities and ratings at most 200 apart that round to different
    bucket keys are enqueued into the empty service and one pairing tick
    then runs, both are removed from the HUMAN queue and the reverse
    index, and one decision is recorded linking them, with the
    higher-rated player on the first (white) side. *)
Theorem two_humans_in_range_are_paired clock
    (first second : MatchmakingRequest) :
  req_preferred_opponent first = HUMAN ->
  req_preferred_opponent second = HUMAN ->
  req_player first <> req_player second ->
  elo_bucket_of (req_player_elo first)
  <> elo_bucket_of (req_player_elo second) ->
  Z.abs (req_player_elo second - req_player_elo first) <= 200 ->
  let s := run clock [Enqueue first; Enqueue second] init in
  let s' := exec (_process_matches clock) s in
  let higher :=
    if Z.ltb (req_player_elo first) (req_player_elo second)
    then second else first in
  let lower :=
    if Z.ltb (req_player_elo first) (req_player_elo second)
    then first else second in
  PyDict.len (human_queue s) = 2
  /\ result (_process_matches clock) s = Return tt
  /\ human_queue s' = []
  /\ player_lookup s' = ∅
  /\ exists gid,
       match_log s'
       = [ {| player1 := req_player higher; player2 := req_player lower;
              player1_elo := req_player_elo higher;
              player2_elo := req_player_elo lower;
              game_id := gid; is_bot_match := false; bot_level := None |} ]
       /\ PyDict.values (active_games s') = match_log s'.
Proof.
  intros Hp1 Hp2 Hid Hbucket Hrange. cbv zeta.
  destruct (two_enqueued clock first second Hp1 Hp2 Hbucket)
    as (Hh & Hy & Ha & Hl & Hlog & Hgames).
  set (s := run clock [Enqueue first; Enqueue second] init) in *.
  set (pA := new_waiter clock first init) in *.
  set (pB := new_waiter clock second (exec (queue_player clock first) init))
    in *.
  destruct (tick_pairs_two clock s pA pB Hh Hy Ha Hbucket Hrange)
    as (m & s1 & s' & Hmk & Hlog1 & Hrun & Hh' & Hl' & Hlog' & Hgames').
  unfold result, exec. rewrite Hrun. cbn [fst snd].
  split; [rewrite Hh; reflexivity |]. split; [reflexivity |].
  split; [exact Hh' |].
  split; [rewrite Hl', Hl; apply lookup_emptied |].
  rewrite Hlog', Hgames', Hlog, Hgames. cbn [app PyDict.set PyDict.values].
  destruct (_create_match_spec clock pA pB
              (set_clock_reads (S (clock_reads s)) s))
    as (m' & s1' & Hmk' & (_ & _ & _ & _ & Hlogm) & _ & Hbot & Hlevel & Hsides).
  rewrite Hmk in Hmk'. injection Hmk' as <-.
  change (match_log (set_clock_reads (S (clock_reads s)) s))
    with (match_log s) in Hlogm.
  rewrite Hlog1 in Hlogm. apply app_inv_head in Hlogm. injection Hlogm as <-.
  exists (game_id m). split; [| reflexivity].
  destruct m as [w bl we ble gid bot lvl]. simpl in *. subst bot lvl.
  destruct (Z.geb_spec (req_player_elo first) (req_player_elo second));
    destruct (Z.ltb_spec (req_player_elo first) (req_player_elo second));
    try lia.
  - rewrite String.eqb_refl in Hsides. injection Hsides as -> -> -> ->.
    reflexivity.
  - assert ((req_player second =? req_player first)%string = false) as E1
        by (apply String.eqb_neq; congruence).
    assert ((req_player first =? req_player second)%string = false) as E2
        by (apply String.eqb_neq; congruence).
    rewrite E1, E2 in Hsides. injection Hsides as -> -> -> ->. reflexivity.
Qed.

Lemma two_humans_in_range_are_paired_witness :
  let s := run instant_clock
             [Enqueue (request_of "A" 1000 HUMAN);
              Enqueue (request_of "B" 1051 HUMAN)] init in
  let s' := exec (_process_matches instant_clock) s in
  human_queue s' = []
  /\ exists gid,
       match_log s'
       = [ {| player1 := "B"; player2 := "A";
              player1_elo := 1051; player2_elo := 1000;
              game_id := gid; is_bot_match := false; bot_level := None |} ].
Proof.
  destruct (two_humans_in_range_are_paired instant_clock
              (request_of "A" 1000 HUMAN) (request_of "B" 1051 HUMAN))
    as (_ & _ & Hqueue & _ & gid & Hlog & _).
  - reflexivity.
  - reflexivity.
  - discriminate.
  - vm_compute. discriminate.
  - simpl. lia.
  - split; [exact Hqueue |]. exists gid. exact Hlog.
Defined.

(** C7 as stated fails: 1000 and 1050 both round to bucket key 1000
    ([round(10.5)] is 10), so B's entry replaces A's; the tick that
    follows finds one waiter in HUMAN, pairs nobody and leaves B queued. *)
Lemma same_bucket_scenario_pairs_nobody :
  let s := run instant_clock
             [Enqueue (request_of "A" 1000 HUMAN);
              Enqueue (request_of "B" 1050 HUMAN)] init in
  let s' := exec (_process_matches instant_clock) s in
  elo_bucket_of 1000 = 1000
  /\ elo_bucket_of 1050 = 1000
  /\ PyDict.values (human_queue s)
     = [ {| player_address := "B"; elo := 1050;
            preferred_opponent := HUMAN; queued_at := 1700000000123000;
            min_elo := 0; max_elo := 3000 |} ]
  /\ human_queue s' = human_queue s
  /\ match_log s' = []
  /\ active_games s' = [].
Proof. vm_compute. repeat split. Qed.

(** * Further properties of the service *)

(** ** Bucket keys *)

(** The bucket key in integer arithmetic: the hundreds of the rating,
    rounded to the nearest, a tie going to the even hundred. *)
Lemma elo_bucket_of_cases (player_elo : Z) :
  elo_bucket_of player_elo
  = 100 * (if Z.ltb (player_elo mod 100) 50 then player_elo / 100
           else if Z.ltb 50 (player_elo mod 100) then player_elo / 100 + 1
           else if Z.even (player_elo / 100) then player_elo / 100
           else player_elo / 100 + 1).
Proof.
  unfold elo_bucket_of, py_truediv, py_round.
  change (Qfloor (player_elo # 100)) with (player_elo / 100).
  pose proof (Z.div_mod player_elo 100 ltac:(lia)) as Hdm.
  pose proof (Z.mod_pos_bound player_elo 100 ltac:(lia)) as Hr.
  unfold Qcompare, Qminus, Qplus, Qopp, inject_Z. cbn [Qnum Qden].
  destruct (Z.compare_spec
              ((player_elo * 1 + - (player_elo / 100) * 100) * 2)
              (1 * Zpos (100 * 1))) as [H | H | H];
    destruct (Z.ltb_spec (player_elo mod 100) 50);
    destruct (Z.ltb_spec 50 (player_elo mod 100));
    lia.
Qed.




(** X2: a higher rating never gets a lower bucket key. *)
Theorem bucket_is_monotone (elo1 elo2 : Z) :
  elo1 <= elo2 -> elo_bucket_of elo1 <= elo_bucket_of elo2.
Proof.
  intros Hle. rewrite !elo_bucket_of_cases.
  pose proof (Z.div_mod elo1 100 ltac:(lia)) as Hdm1.
  pose proof (Z.mod_pos_bound elo1 100 ltac:(lia)) as Hr1.
  pose proof (Z.div_mod elo2 100 ltac:(lia)) as Hdm2.
  pose proof (Z.mod_pos_bound elo2 100 ltac:(lia)) as Hr2.
  pose proof (Z.div_le_mono elo1 elo2 100 ltac:(lia) Hle) as Hq.
  destruct (decide (elo1 / 100 = elo2 / 100)) as [Heq | Hne].
  - rewrite Heq in *.
    destruct (Z.ltb_spec (elo1 mod 100) 50);
      destruct (Z.ltb_spec 50 (elo1 mod 100));
      destruct (Z.ltb_spec (elo2 mod 100) 50);
      destruct (Z.ltb_spec 50 (elo2 mod 100));
      try destruct (Z.even (elo2 / 100)); lia.
  - destruct (Z.ltb_spec (elo1 mod 100) 50);
      destruct (Z.ltb_spec 50 (elo1 mod 100));
      destruct (Z.ltb_spec (elo2 mod 100) 50);
      destruct (Z.ltb_spec 50 (elo2 mod 100));
      try destruct (Z.even (elo1 / 100));
      try destruct (Z.even (elo2 / 100)); lia.
Qed.

Lemma bucket_is_monotone_witness :
  elo_bucket_of 1049 <= elo_bucket_of 1050
  /\ elo_bucket_of 1050 <= elo_bucket_of 1051.
Proof.
  split; apply bucket_is_monotone; lia.
Defined.

(** ** The bot table *)

Lemma bot_configs_elo (level : Z) (bot_config : BotConfig) :
  bot_configs !! level = Some bot_config ->
  bot_elo bot_config = 200 * level + 200.
Proof.
  intros Hk. unfold bot_configs in Hk.
  apply elem_of_list_to_map_2 in Hk.
  repeat (apply elem_of_cons in Hk as [Hk | Hk];
          [injection Hk as -> ->; reflexivity |]).
  inversion Hk.
Qed.

(** X3: a higher rating never gets a lower bot level. *)
Theorem bot_level_is_monotone (elo1 elo2 : Z) :
  elo1 <= elo2 -> _find_bot_level elo1 <= _find_bot_level elo2.
Proof.
  intros Hle. unfold _find_bot_level.
  pose proof (Z.div_le_mono (elo1 - 200) (elo2 - 200) 200 ltac:(lia)
                ltac:(lia)).
  lia.
Qed.

Lemma bot_level_is_monotone_witness :
  _find_bot_level 399 <= _find_bot_level 400.
Proof. apply bot_level_is_monotone. lia. Defined.

(** X4: the level found for a rating is in the bot table and its bot is
    rated [200 * level + 200]: above the player by 1 to 200 points for
    ratings from 200 up to 2199, 400 below that and 2200 above. *)
Theorem bot_is_rated_just_above_player (player_elo : Z) :
  exists bot_config,
    bot_configs !! _find_bot_level player_elo = Some bot_config
    /\ bot_elo bot_config = 200 * _find_bot_level player_elo + 200
    /\ (200 <= player_elo < 2200 ->
        player_elo < bot_elo bot_config <= player_elo + 200)
    /\ (player_elo < 200 -> bot_elo bot_config = 400)
    /\ (2200 <= player_elo -> bot_elo bot_config = 2200).
Proof.
  destruct (bot_level_configured player_elo) as [cfg Hcfg].
  exists cfg. split; [exact Hcfg |].
  pose proof (bot_configs_elo _ _ Hcfg) as Helo.
  split; [exact Helo |]. rewrite Helo. unfold _find_bot_level.
  pose proof (Z.div_mod (player_elo - 200) 200 ltac:(lia)) as Hdm.
  pose proof (Z.mod_pos_bound (player_elo - 200) 200 ltac:(lia)) as Hr.
  repeat split; intros; lia.
Qed.

Lemma bot_is_rated_just_above_player_witness :
  exists bot_config,
    bot_configs !! _find_bot_level 1500 = Some bot_config
    /\ 1500 < bot_elo bot_config <= 1700.
Proof.
  destruct (bot_is_rated_just_above_player 1500)
    as (cfg & Hcfg & _ & Hmid & _).
  exists cfg. split; [exact Hcfg |]. apply Hmid. lia.
Defined.

(** ** Game ids *)




(** ** What an enqueue answers and what it leaves alone *)

Lemma position_fold_bounds (player : QueuedPlayer)
    (items : list (Z * QueuedPlayer)) : forall acc,
  acc <= fold_left
           (fun position '(elo_bucket, queued) =>
              if Z.leb (Z.abs (elo_bucket - elo player)) ELO_RANGE
              then if Z.ltb (queued_at queued) (queued_at player)
                   then position + 1 else position
              else position)
           items acc
      <= acc + Z.of_nat (length items).
Proof.
  induction items as [| [k q] items IH]; intros acc; simpl; [lia |].
  match goal with |- context [fold_left _ items ?a] =>
    specialize (IH a) end.
  destruct (Z.leb _ ELO_RANGE); [destruct (Z.ltb _ _) |]; lia.
Qed.

Lemma position_fold_own (player : QueuedPlayer)
    (items : list (Z * QueuedPlayer)) (k : Z) : forall acc,
  (k, player) ∈ items ->
  fold_left
    (fun position '(elo_bucket, queued) =>
       if Z.leb (Z.abs (elo_bucket - elo player)) ELO_RANGE
       then if Z.ltb (queued_at queued) (queued_at player)
            then position + 1 else position
       else position)
    items acc
  <= acc + Z.of_nat (length items) - 1.
Proof.
  induction items as [| [k' q] items IH]; intros acc Hin; [inversion Hin |].
  apply elem_of_cons in Hin as [[= <- <-] | Hin]; cbn [fold_left].
  - rewrite Z.ltb_irrefl.
    match goal with |- context [fold_left _ items ?a] =>
      pose proof (position_fold_bounds player items a) as Hb end.
    destruct (Z.leb _ ELO_RANGE) in *; cbn [length]; lia.
  - match goal with |- context [fold_left _ items ?a] =>
      specialize (IH a Hin) end.
    destruct (Z.leb _ ELO_RANGE); [destruct (Z.ltb _ _) |];
      cbn [length]; lia.
Qed.

Lemma queue_player_status clock request s :
  result (queue_player clock request) s
  = Return {| is_queued := true;
              queue_position :=
                _get_queue_position (new_waiter clock request s)
                  (exec (queue_player clock request) s);
              estimated_wait_seconds :=
                _estimate_wait_time (req_preferred_opponent request)
                  (exec (queue_player clock request) s);
              status_preferred_opponent := req_preferred_opponent request |}.
Proof. destruct request as [a e [] lo hi]; reflexivity. Qed.

(** X6: every enqueue answers [is_queued = true] with a position from 1
    to the size of the queue it joined and an estimate of 15, 30 or 60
    seconds, never the 5 of an empty queue. *)
Theorem enqueue_status_bounds clock (request : MatchmakingRequest)
    (s : MatchmakingService) :
  exists position wait,
    result (queue_player clock request) s
    = Return {| is_queued := true;
                queue_position := position;
                estimated_wait_seconds := wait;
                status_preferred_opponent := req_preferred_opponent request |}
    /\ 1 <= position
       <= PyDict.len (_get_queue (req_preferred_opponent request)
                        (exec (queue_player clock request) s))
    /\ (wait = 15 \/ wait = 30 \/ wait = 60).
Proof.
  eexists _, _. split; [apply queue_player_status |].
  set (s' := exec (queue_player clock request) s).
  assert ((elo_bucket_of (req_player_elo request),
           new_waiter clock request s)
          ∈ _get_queue (req_preferred_opponent request) s') as Hown.
  { apply get_Some_elem. unfold s'.
    rewrite queue_player_queue, decide_True by done. apply get_set_eq. }
  split.
  - unfold _get_queue_position, PyDict.items, PyDict.len.
    change (preferred_opponent (new_waiter clock request s))
      with (req_preferred_opponent request).
    split.
    + apply position_fold_bounds.
    + pose proof (position_fold_own _ _ _ 1 Hown). lia.
  - unfold _estimate_wait_time, PyDict.len.
    destruct (_get_queue (req_preferred_opponent request) s') as [| x l];
      [inversion Hown |].
    cbn [length].
    destruct (Z.eqb_spec (Z.of_nat (S (length l))) 0); [lia |].
    destruct (Z.ltb _ 5); [auto |]. destruct (Z.ltb _ 10); auto.
Qed.

Lemma pop_absent {V} (k : Z) (d : PyDict.t V) :
  PyDict.get k d = None -> PyDict.pop k d = d.
Proof.
  induction d as [| [k' v'] d IH]; simpl; [reflexivity |].
  destruct (Z.eqb_spec k k'); [discriminate |].
  intros H. rewrite (IH H). reflexivity.
Qed.

Lemma pop_set_fresh {V} (k : Z) (v : V) (d : PyDict.t V) :
  PyDict.get k d = None -> PyDict.pop k (PyDict.set k v d) = d.
Proof.
  induction d as [| [k' v'] d IH]; simpl.
  - rewrite Z.eqb_refl. reflexivity.
  - destruct (Z.eqb_spec k k') as [-> | Hne]; [discriminate |].
    intros H. simpl. destruct (Z.eqb_spec k k'); [contradiction |].
    rewrite (IH H). reflexivity.
Qed.

(** X7: an enqueue leaves the other two queues, the other bucket keys
    of its own queue, the index entries of other identities, the registry
    and the log as they were. *)
Theorem enqueue_touches_one_bucket clock (request : MatchmakingRequest)
    (s : MatchmakingService) :
  let s' := exec (queue_player clock request) s in
  (forall t, t <> req_preferred_opponent request ->
             _get_queue t s' = _get_queue t s)
  /\ (forall k, k <> elo_bucket_of (req_player_elo request) ->
                PyDict.get k (_get_queue (req_preferred_opponent request) s')
                = PyDict.get k (_get_queue (req_preferred_opponent request) s))
  /\ (forall address, address <> req_player request ->
                      player_lookup s' !! address = player_lookup s !! address)
  /\ active_games s' = active_games s
  /\ match_log s' = match_log s.
Proof.
  cbv zeta. split; [| split; [| split]].
  - intros t Hne. rewrite queue_player_queue, decide_False by done.
    reflexivity.
  - intros k Hne. rewrite queue_player_queue, decide_True by done.
    apply get_set_ne. congruence.
  - intros address Hne. rewrite queue_player_lookup.
    apply lookup_insert_ne. congruence.
  - destruct request as [a e [] lo hi]; split; reflexivity.
Qed.

Lemma enqueue_touches_one_bucket_witness :
  let s := exec (queue_player sample_clock (request_of "A" 1000 HUMAN)) init in
  let s' := exec (queue_player sample_clock (request_of "B" 1040 ANY)) s in
  human_queue s' = human_queue s
  /\ player_lookup s' !! "A" = player_lookup s !! "A".
Proof.
  destruct (enqueue_touches_one_bucket sample_clock (request_of "B" 1040 ANY)
              (exec (queue_player sample_clock (request_of "A" 1000 HUMAN))
                 init))
    as (Hqueues & _ & Hindex & _).
  split.
  - apply (Hqueues HUMAN). discriminate.
  - apply Hindex. discriminate.
Defined.

Lemma cancel_queue_frame (address : string) (s : MatchmakingService) :
  active_games (exec (cancel_queue address) s) = active_games s
  /\ match_log (exec (cancel_queue address) s) = match_log s
  /\ clock_reads (exec (cancel_queue address) s) = clock_reads s.
Proof.
  unfold exec, cancel_queue, bind, gets.
  destruct (player_lookup s !! address); repeat split.
Qed.

(** X8: cancelling right after an enqueue of an identity that was not
    indexed, into a bucket no queue occupied, answers [true] and restores
    the three queues and the index. *)
Theorem cancel_undoes_fresh_enqueue clock (request : MatchmakingRequest)
    (s : MatchmakingService) :
  fresh_enqueue request s = true ->
  let s1 := exec (queue_player clock request) s in
  let s2 := exec (cancel_queue (req_player request)) s1 in
  result (cancel_queue (req_player request)) s1 = Return true
  /\ (forall t, _get_queue t s2 = _get_queue t s)
  /\ player_lookup s2 = player_lookup s
  /\ active_games s2 = active_games s
  /\ match_log s2 = match_log s.
Proof.
  intros Hfresh. cbv zeta.
  apply fresh_enqueue_spec in Hfresh as [Hnew Hfree].
  assert (player_lookup (exec (queue_player clock request) s)
          !! req_player request
          = Some (elo_bucket_of (req_player_elo request))) as Hl.
  { rewrite queue_player_lookup. apply lookup_insert_eq. }
  destruct (cancel_queue_present _ _ _ Hl) as (Hres & Hq & Hl').
  split; [exact Hres |]. split; [| split].
  - intros t. rewrite Hq, queue_player_queue. case_decide.
    + apply pop_set_fresh, Hfree.
    + apply pop_absent, Hfree.
  - rewrite Hl', queue_player_lookup. apply delete_insert_id, Hnew.
  - destruct (cancel_queue_frame (req_player request)
                (exec (queue_player clock request) s)) as (-> & -> & _).
    destruct request as [a e [] lo hi]; split; reflexivity.
Qed.

Lemma cancel_undoes_fresh_enqueue_witness :
  let s := exec (queue_player sample_clock (request_of "A" 1000 HUMAN)) init in
  let s1 := exec (queue_player sample_clock (request_of "B" 1200 HUMAN)) s in
  let s2 := exec (cancel_queue "B") s1 in
  human_queue s2 = human_queue s /\ player_lookup s2 = player_lookup s.
Proof.
  destruct (cancel_undoes_fresh_enqueue sample_clock
              (request_of "B" 1200 HUMAN)
              (exec (queue_player sample_clock (request_of "A" 1000 HUMAN))
                 init))
    as (_ & Hqueues & Hindex & _).
  - vm_compute. reflexivity.
  - split; [apply (Hqueues HUMAN) | exact Hindex].
Defined.

(** ** Queue status *)

Lemma find_queued_shape (elo_bucket : Z) (h a y : PyDict.t QueuedPlayer) :
  match find_queued elo_bucket [("human", h); ("ai", a); ("any", y)] with
  | inl (ValueError name) =>
      (name = "human" /\ is_Some (PyDict.get elo_bucket h))
      \/ (name = "ai" /\ PyDict.get elo_bucket h = None
          /\ is_Some (PyDict.get elo_bucket a))
      \/ (name = "any" /\ PyDict.get elo_bucket h = None
          /\ PyDict.get elo_bucket a = None
          /\ is_Some (PyDict.get elo_bucket y))
  | inr (None, _) =>
      PyDict.get elo_bucket h = None /\ PyDict.get elo_bucket a = None
      /\ PyDict.get elo_bucket y = None
  | inr (Some _, _) => False
  end.
Proof.
  simpl.
  destruct (PyDict.get elo_bucket h); [left; eauto |].
  destruct (PyDict.get elo_bucket a); [right; left; eauto |].
  destruct (PyDict.get elo_bucket y); [right; right; eauto 6 |].
  auto.
Qed.

(** X9: [get_queue_status] never returns a status.  It returns [None]
    when the identity is not indexed or its bucket key is in no queue, and
    otherwise raises [ValueError], since it builds the opponent type from
    the lower-case queue name. *)
Theorem get_queue_status_never_answers (address : string)
    (s : MatchmakingService) :
  (forall status, get_queue_status address s <> inr (Some status))
  /\ (get_queue_status address s = inr None
      <-> (player_lookup s !! address = None
           \/ exists elo_bucket,
                player_lookup s !! address = Some elo_bucket
                /\ bucket_free elo_bucket s = true))
  /\ (forall elo_bucket,
        player_lookup s !! address = Some elo_bucket ->
        bucket_free elo_bucket s = false ->
        exists name, get_queue_status address s = inl (ValueError name)).
Proof.
  unfold get_queue_status, bucket_free, PyDict.contains.
  destruct (player_lookup s !! address) as [b |]; cycle 1.
  { split; [discriminate |]. split; [| discriminate].
    split; auto. }
  pose proof (find_queued_shape b (human_queue s) (ai_queue s) (any_queue s))
    as Hshape.
  destruct (find_queued b _) as [[name] | [[p |] t]]; [| contradiction |].
  - split; [discriminate |]. split.
    + split; [discriminate |].
      intros [? | (b' & [= <-] & Hfree)]; [discriminate |].
      exfalso.
      destruct Hshape as [(_ & [x Hx]) | [(_ & _ & [x Hx])
                                         | (_ & _ & _ & [x Hx])]];
        rewrite Hx in Hfree; simpl in Hfree;
        rewrite ?andb_false_r in Hfree; discriminate.
    + intros b' [= <-] _. eauto.
  - destruct Hshape as (Hh & Ha & Hy). split; [discriminate |]. split.
    + split; [| reflexivity]. intros _. right. exists b.
      rewrite Hh, Ha, Hy. auto.
    + intros b' [= <-]. rewrite Hh, Ha, Hy. discriminate.
Qed.

Lemma get_queue_status_never_answers_witness :
  let s := exec (queue_player sample_clock (request_of "A" 1000 HUMAN)) init in
  get_queue_status "A" s = inl (ValueError "human").
Proof.
  destruct (get_queue_status_never_answers "A"
              (exec (queue_player sample_clock (request_of "A" 1000 HUMAN))
                 init))
    as (_ & _ & Hraises).
  destruct (Hraises 1000) as [name Hname].
  - vm_compute. reflexivity.
  - vm_compute. reflexivity.
  - cbv zeta. rewrite Hname. f_equal.
    vm_compute in Hname. congruence.
Defined.

(** X10: asking for the status of the identity that was just enqueued
    raises [ValueError] on the name of a queue. *)
Theorem status_after_enqueue_raises clock (request : MatchmakingRequest)
    (s : MatchmakingService) :
  exists name,
    get_queue_status (req_player request)
      (exec (queue_player clock request) s)
    = inl (ValueError name)
    /\ (name = "human" \/ name = "ai" \/ name = "any").
Proof.
  unfold get_queue_status. rewrite queue_player_lookup, lookup_insert_eq.
  set (s' := exec (queue_player clock request) s).
  pose proof (find_queued_shape (elo_bucket_of (req_player_elo request))
                (human_queue s') (ai_queue s') (any_queue s')) as Hshape.
  destruct (find_queued _ _) as [[name] | [[p |] t]]; [| contradiction |].
  - exists name. split; [reflexivity |]. tauto.
  - exfalso. destruct Hshape as (Hh & Ha & Hy).
    assert (PyDict.get (elo_bucket_of (req_player_elo request))
              (_get_queue (req_preferred_opponent request) s')
            = Some (new_waiter clock request s)) as Hown.
    { unfold s'. rewrite queue_player_queue, decide_True by done.
      apply get_set_eq. }
    destruct (req_preferred_opponent request); unfold _get_queue in Hown;
      congruence.
Qed.

(** ** Match retrieval *)

Lemma find_match_None (address : string) (games : list (Z * MatchResult)) :
  find_match address games = None
  <-> forall gid m, (gid, m) ∈ games ->
                    player1 m <> address /\ player2 m <> address.
Proof.
  induction games as [| [g m0] games IH]; simpl.
  - split; [intros _ gid m H; inversion H | reflexivity].
  - destruct (String.eqb_spec (player1 m0) address) as [H1 | H1]; simpl.
    { split; [discriminate |]. intros H.
      destruct (H g m0) as [Hc _]; [apply elem_of_cons; auto | contradiction]. }
    destruct (String.eqb_spec (player2 m0) address) as [H2 | H2]; simpl.
    { split; [discriminate |]. intros H.
      destruct (H g m0) as [_ Hc]; [apply elem_of_cons; auto | contradiction]. }
    rewrite IH. split.
    + intros H gid m Hin.
      apply elem_of_cons in Hin as [Heq | Hin]; [| eauto].
      injection Heq as -> ->. split; assumption.
    + intros H gid m Hin. apply (H gid), elem_of_cons. auto.
Qed.

Lemma find_match_skip (address : string) (pre rest : list (Z * MatchResult)) :
  (forall gid m, (gid, m) ∈ pre ->
                 player1 m <> address /\ player2 m <> address) ->
  find_match address (pre ++ rest) = find_match address rest.
Proof.
  induction pre as [| [g m0] pre IH]; intros Hpre; simpl; [reflexivity |].
  destruct (Hpre g m0) as [H1 H2]; [apply elem_of_cons; auto |].
  apply String.eqb_neq in H1, H2. rewrite H1, H2. simpl.
  apply IH. intros gid m Hin. apply (Hpre gid), elem_of_cons. auto.
Qed.

(** X11: [get_match_result] answers [None] exactly when no recorded game
    has the identity on either side. *)
Theorem get_match_result_none_iff (address : string)
    (s : MatchmakingService) :
  get_match_result address s = None
  <-> forall gid m, (gid, m) ∈ active_games s ->
                    player1 m <> address /\ player2 m <> address.
Proof. apply find_match_None. Qed.

(** X12: when a recorded game is the first that involves either of its
    two distinct sides, both sides are handed that game id, each the other
    as opponent with the other's rating, the first side WHITE and the
    second BLACK. *)
Theorem both_sides_see_the_game (s : MatchmakingService)
    (pre post : list (Z * MatchResult)) (gid : Z) (m : MatchResult) :
  active_games s = pre ++ (gid, m) :: post ->
  (forall g m', (g, m') ∈ pre ->
                player1 m' <> player1 m /\ player2 m' <> player1 m
                /\ player1 m' <> player2 m /\ player2 m' <> player2 m) ->
  player1 m <> player2 m ->
  get_match_result (player1 m) s
  = Some {| found_game_id := gid; opponent := player2 m;
            opponent_elo := player2_elo m; is_bot := is_bot_match m;
            found_bot_level := bot_level m; color := WHITE |}
  /\ get_match_result (player2 m) s
     = Some {| found_game_id := gid; opponent := player1 m;
               opponent_elo := player1_elo m; is_bot := is_bot_match m;
               found_bot_level := bot_level m; color := BLACK |}.
Proof.
  intros Hgames Hpre Hsides. unfold get_match_result, PyDict.items.
  rewrite Hgames. split.
  - rewrite find_match_skip
      by (intros g m' Hin; destruct (Hpre g m' Hin); tauto).
    simpl. rewrite String.eqb_refl. reflexivity.
  - rewrite find_match_skip
      by (intros g m' Hin; destruct (Hpre g m' Hin); tauto).
    simpl. apply String.eqb_neq in Hsides. rewrite Hsides, String.eqb_refl.
    reflexivity.
Qed.

Lemma both_sides_see_the_game_witness :
  let s := exec (_process_matches instant_clock)
             (run instant_clock
                [Enqueue (request_of "A" 1000 HUMAN);
                 Enqueue (request_of "B" 1051 HUMAN)] init) in
  get_match_result "B" s
  = Some {| found_game_id := 2123; opponent := "A"; opponent_elo := 1000;
            is_bot := false; found_bot_level := None; color := WHITE |}
  /\ get_match_result "A" s
     = Some {| found_game_id := 2123; opponent := "B"; opponent_elo := 1051;
               is_bot := false; found_bot_level := None; color := BLACK |}.
Proof.
  apply (both_sides_see_the_game _ [] []
           2123 {| player1 := "B"; player2 := "A"; player1_elo := 1051;
                   player2_elo := 1000; game_id := 2123;
                   is_bot_match := false; bot_level := None |}).
  - vm_compute. reflexivity.
  - intros g m' H. inversion H.
  - discriminate.
Defined.



(** ** Composing method bodies *)

Section Preserves.
Variable R : MatchmakingService -> MatchmakingService -> Prop.
Hypothesis R_refl : forall s, R s s.
Hypothesis R_trans : forall s1 s2 s3, R s1 s2 -> R s2 s3 -> R s1 s3.

Lemma preserves_ret {A} (a : A) : preserves R (ret a).
Proof. intros s. exists a, s. split; [reflexivity | apply R_refl]. Qed.

Lemma preserves_gets {A} (f : MatchmakingService -> A) : preserves R (gets f).
Proof. intros s. exists (f s), s. split; [reflexivity | apply R_refl]. Qed.

Lemma preserves_bind {A B} (c : M A) (k : A -> M B) :
  preserves R c -> (forall a, preserves R (k a)) -> preserves R (bind c k).
Proof.
  intros Hc Hk s. destruct (Hc s) as (a & s1 & Hrun1 & HR1).
  destruct (Hk a s1) as (b & s2 & Hrun2 & HR2).
  exists b, s2. unfold bind. rewrite Hrun1. split; [exact Hrun2 |].
  eapply R_trans; eauto.
Qed.

Lemma preserves_for_each {A T} (items : list A) (body : A -> T -> M T) :
  (forall x acc, x ∈ items -> preserves R (body x acc)) ->
  forall acc, preserves R (for_each items body acc).
Proof.
  induction items as [| x items IH]; intros Hbody acc; simpl.
  - apply preserves_ret.
  - apply preserves_bind.
    + apply Hbody, elem_of_cons. auto.
    + intros acc'. apply IH. intros y acc'' Hy.
      apply Hbody, elem_of_cons. auto.
Qed.

Lemma preserves_modify (f : MatchmakingService -> MatchmakingService) :
  (forall s, R s (f s)) -> preserves R (modify f).
Proof. intros Hf s. exists tt, (f s). split; [reflexivity | apply Hf]. Qed.

End Preserves.

(** ** A tick only removes waiters and only adds games *)

Lemma only_shrinks_refl s : only_shrinks s s.
Proof.
  repeat split; auto. exists []. symmetry. apply app_nil_r.
Qed.

Lemma only_shrinks_trans s1 s2 s3 :
  only_shrinks s1 s2 -> only_shrinks s2 s3 -> only_shrinks s1 s3.
Proof.
  intros (Hq1 & Hl1 & Hg1 & c1 & Hc1) (Hq2 & Hl2 & Hg2 & c2 & Hc2).
  split; [| split; [| split]].
  - intros t. destruct (Hq1 t) as [Hn1 He1], (Hq2 t) as [Hn2 He2].
    split; auto.
  - auto.
  - auto.
  - exists (c1 ++ c2). rewrite Hc2, Hc1, app_assoc. reflexivity.
Qed.

Lemma is_Some_get_set {V} (k k' : Z) (v : V) (d : PyDict.t V) :
  is_Some (PyDict.get k' d) -> is_Some (PyDict.get k' (PyDict.set k v d)).
Proof.
  intros H. destruct (decide (k = k')) as [-> | Hne].
  - rewrite get_set_eq. eauto.
  - rewrite get_set_ne by done. exact H.
Qed.

Lemma only_shrinks_clock s n : only_shrinks s (set_clock_reads n s).
Proof.
  split; [| split; [| split]].
  - intros []; auto.
  - auto.
  - auto.
  - exists []. symmetry. apply app_nil_r.
Qed.

Lemma only_shrinks_pop queue k s :
  only_shrinks s (update_queue queue (PyDict.pop k) s).
Proof.
  split; [| split; [| split]].
  - intros t. rewrite get_queue_update. case_decide; [| auto].
    split; [apply NoDup_keys_pop |].
    intros k' p Hin. apply elem_pop in Hin as [Hin _]. exact Hin.
  - destruct queue; auto.
  - destruct queue; auto.
  - exists []. destruct queue; symmetry; apply app_nil_r.
Qed.

Lemma only_shrinks_delete address s :
  only_shrinks s
    (set_player_lookup (delete address (player_lookup s)) s).
Proof.
  split; [| split; [| split]].
  - intros []; auto.
  - intros a k Hl. simpl in Hl. apply lookup_delete_Some in Hl as [_ Hl].
    exact Hl.
  - auto.
  - exists []. symmetry. apply app_nil_r.
Qed.

Lemma only_shrinks_record m s :
  only_shrinks s
    (set_match_log (match_log s ++ [m])
       (set_active_games (PyDict.set (game_id m) m (active_games s)) s)).
Proof.
  split; [| split; [| split]].
  - intros []; auto.
  - auto.
  - intros gid. apply is_Some_get_set.
  - exists [m]. reflexivity.
Qed.

Section TickShrinks.
Variable clock : nat -> Z.

Lemma shrinks_bind {A B} (c : M A) (k : A -> M B) :
  preserves only_shrinks c -> (forall a, preserves only_shrinks (k a)) ->
  preserves only_shrinks (bind c k).
Proof.
  apply preserves_bind. exact only_shrinks_trans.
Qed.

Lemma shrinks_ret {A} (a : A) : preserves only_shrinks (ret a).
Proof. apply preserves_ret, only_shrinks_refl. Qed.

Lemma shrinks_wait_time p : preserves only_shrinks (wait_time clock p).
Proof.
  intros s. eexists _, _. split; [reflexivity | apply only_shrinks_clock].
Qed.

Lemma shrinks_game_id : preserves only_shrinks (_generate_game_id clock).
Proof.
  intros s. eexists _, _. split; [reflexivity | apply only_shrinks_clock].
Qed.

Lemma shrinks_record_match m : preserves only_shrinks (record_match m).
Proof.
  intros s. eexists _, _. split; [reflexivity |].
  exact (only_shrinks_record m s).
Qed.

Lemma shrinks_create_match p1 p2 is_bot level :
  preserves only_shrinks (_create_match clock p1 p2 is_bot level).
Proof.
  unfold _create_match. apply shrinks_bind; [apply shrinks_game_id |].
  intros gid. destruct (Z.geb (elo p1) (elo p2)); apply shrinks_record_match.
Qed.

Lemma shrinks_create_bot_match p :
  preserves only_shrinks (_create_bot_match clock p).
Proof.
  unfold _create_bot_match.
  destruct (bot_level_configured (elo p)) as [cfg ->].
  apply shrinks_bind; [apply shrinks_game_id |].
  intros gid. apply shrinks_record_match.
Qed.

Lemma shrinks_match_step qt snapshot entry to_remove :
  preserves only_shrinks (match_step clock qt snapshot entry to_remove).
Proof.
  unfold match_step. destruct (bool_decide _); [apply shrinks_ret |].
  apply shrinks_bind; [apply shrinks_wait_time |]. intros w.
  apply shrinks_bind.
  { destruct (find_partner _ _ _ _); [| apply shrinks_ret].
    apply shrinks_bind; [apply shrinks_create_match |].
    intros _. apply shrinks_ret. }
  intros tr. destruct (_ && _); [| apply shrinks_ret].
  apply shrinks_bind; [apply shrinks_wait_time |]. intros w'.
  destruct (Qgtb _ _); [| apply shrinks_ret].
  apply shrinks_bind; [apply shrinks_create_bot_match |].
  intros _. apply shrinks_ret.
Qed.

Lemma shrinks_remove_matched queue to_remove :
  preserves only_shrinks (remove_matched queue to_remove).
Proof.
  unfold remove_matched.
  apply preserves_for_each;
    [apply only_shrinks_refl | apply only_shrinks_trans |].
  intros p [] _. apply shrinks_bind.
  - apply preserves_modify. intros s. apply only_shrinks_pop.
  - intros _. apply preserves_modify. intros s. apply only_shrinks_delete.
Qed.

Lemma shrinks_match_players queue queue_type :
  preserves only_shrinks (_match_players clock queue queue_type).
Proof.
  unfold _match_players.
  apply shrinks_bind; [apply preserves_gets, only_shrinks_refl |].
  intros snapshot. apply shrinks_bind.
  - apply preserves_for_each;
      [apply only_shrinks_refl | apply only_shrinks_trans |].
    intros entry tr _. apply shrinks_match_step.
  - intros tr. apply shrinks_remove_matched.
Qed.

Lemma shrinks_match_ai_players :
  preserves only_shrinks (_match_ai_players clock).
Proof.
  unfold _match_ai_players.
  apply shrinks_bind; [apply preserves_gets, only_shrinks_refl |].
  intros snapshot. apply shrinks_bind.
  - apply preserves_for_each;
      [apply only_shrinks_refl | apply only_shrinks_trans |].
    intros entry tr _. apply shrinks_bind; [apply shrinks_create_bot_match |].
    intros _. apply shrinks_ret.
  - intros tr. apply shrinks_remove_matched.
Qed.

Lemma shrinks_process_matches :
  preserves only_shrinks (_process_matches clock).
Proof.
  unfold _process_matches.
  apply shrinks_bind; [apply shrinks_match_players |]. intros _.
  apply shrinks_bind; [apply shrinks_match_players |]. intros _.
  apply shrinks_match_ai_players.
Qed.

End TickShrinks.

(** X14: a tick returns normally from every state; it adds no waiter to
    any queue and no entry to the index, drops no game id from the
    registry and only appends to the log. *)
Theorem tick_never_raises_and_only_shrinks clock (s : MatchmakingService) :
  let s' := exec (_process_matches clock) s in
  result (_process_matches clock) s = Return tt
  /\ (forall t k p, (k, p) ∈ _get_queue t s' -> (k, p) ∈ _get_queue t s)
  /\ (forall address k,
        player_lookup s' !! address = Some k ->
        player_lookup s !! address = Some k)
  /\ (forall gid,
        is_Some (PyDict.get gid (active_games s)) ->
        is_Some (PyDict.get gid (active_games s')))
  /\ (exists created, match_log s' = match_log s ++ created).
Proof.
  cbv zeta. unfold result, exec.
  destruct (shrinks_process_matches clock s)
    as ([] & s' & -> & Hq & Hl & Hg & Hc).
  split; [reflexivity |]. split; [| auto].
  intros t. apply (Hq t).
Qed.

(** ** Queues of a running service *)

Lemma elem_set {V} (k k0 : Z) (v v0 : V) (d : PyDict.t V) :
  (k, v) ∈ PyDict.set k0 v0 d -> (k, v) = (k0, v0) \/ (k, v) ∈ d.
Proof.
  induction d as [| [k' v'] d IH]; simpl.
  - intros H. apply list_elem_of_singleton in H. auto.
  - destruct (Z.eqb_spec k0 k') as [-> | Hne]; rewrite !elem_of_cons.
    + intros [H | H]; auto.
    + intros [H | H]; [auto |]. destruct (IH H); auto.
Qed.

Lemma bucket_keyed_init : bucket_keyed init.
Proof.
  intros []; (split; [constructor | intros k p H; inversion H]).
Qed.

Lemma bucket_keyed_enqueue clock request s :
  bucket_keyed s -> bucket_keyed (exec (queue_player clock request) s).
Proof.
  intros Hk t. destruct (Hk t) as [Hnd Hin].
  rewrite queue_player_queue. case_decide as Ht; [| auto].
  split; [apply NoDup_keys_set, Hnd |].
  intros k p Hp. apply elem_set in Hp as [[= -> ->] | Hp]; auto.
Qed.

Lemma bucket_keyed_cancel address s :
  bucket_keyed s -> bucket_keyed (exec (cancel_queue address) s).
Proof.
  intros Hk. destruct (player_lookup s !! address) as [b |] eqn:Hl.
  2:{ unfold exec. rewrite cancel_queue_absent by done. exact Hk. }
  destruct (cancel_queue_present _ _ _ Hl) as (_ & Hq & _).
  intros t. destruct (Hk t) as [Hnd Hin]. rewrite Hq.
  split; [apply NoDup_keys_pop, Hnd |].
  intros k p Hp. apply elem_pop in Hp as [Hp _]. auto.
Qed.

Lemma bucket_keyed_shrinks s s' :
  only_shrinks s s' -> bucket_keyed s -> bucket_keyed s'.
Proof.
  intros (Hq & _) Hk t. destruct (Hk t) as [Hnd Hin], (Hq t) as [Hnd' Hin'].
  split; auto.
Qed.

Lemma bucket_keyed_tick clock s :
  bucket_keyed s -> bucket_keyed (exec (_process_matches clock) s).
Proof.
  unfold exec. destruct (shrinks_process_matches clock s) as (a & s' & -> & H).
  apply bucket_keyed_shrinks, H.
Qed.

Lemma bucket_keyed_run_events clock events : forall s,
  bucket_keyed s -> bucket_keyed (run_events clock events s).
Proof.
  induction events as [| e events IH]; intros s Hk; [exact Hk |].
  simpl. apply IH. destruct e as [[request | address] |]; simpl.
  - apply bucket_keyed_enqueue, Hk.
  - apply bucket_keyed_cancel, Hk.
  - apply bucket_keyed_tick, Hk.
Qed.


(** ** Where the matches of a tick come from *)

Section Origins.
Variable clock : nat -> Z.

Lemma _create_match_run p1 p2 s :
  let m := pair_match p1 p2 (game_id_at (clock (clock_reads s))) in
  _create_match clock p1 p2 false None s
  = (Return tt,
     set_match_log (match_log s ++ [m])
       (set_active_games (PyDict.set (game_id m) m (active_games s))
          (set_clock_reads (S (clock_reads s)) s))).
Proof.
  unfold _create_match, pair_match.
  destruct (Z.geb (elo p1) (elo p2)); reflexivity.
Qed.

Lemma _create_bot_match_run p bot_config s :
  bot_configs !! _find_bot_level (elo p) = Some bot_config ->
  let m := bot_match p bot_config (game_id_at (clock (clock_reads s))) in
  _create_bot_match clock p s
  = (Return tt,
     set_match_log (match_log s ++ [m])
       (set_active_games (PyDict.set (game_id m) m (active_games s))
          (set_clock_reads (S (clock_reads s)) s))).
Proof.
  intros Hcfg. unfold _create_bot_match. rewrite Hcfg. reflexivity.
Qed.

Lemma logs_only_refl P s : logs_only P s s.
Proof.
  split; [reflexivity |]. split; [reflexivity |].
  exists []. split; [symmetry; apply app_nil_r | constructor].
Qed.

Lemma logs_only_trans P s1 s2 s3 :
  logs_only P s1 s2 -> logs_only P s2 s3 -> logs_only P s1 s3.
Proof.
  intros (Hq1 & Hl1 & c1 & Hc1 & HP1) (Hq2 & Hl2 & c2 & Hc2 & HP2).
  split; [intros t; rewrite Hq2; apply Hq1 |].
  split; [congruence |].
  exists (c1 ++ c2). split; [rewrite Hc2, Hc1, app_assoc; reflexivity |].
  apply Forall_app. auto.
Qed.

Lemma logs_only_clock P s n : logs_only P s (set_clock_reads n s).
Proof.
  split; [intros []; reflexivity |]. split; [reflexivity |].
  exists []. split; [symmetry; apply app_nil_r | constructor].
Qed.

Lemma logs_only_record (P : MatchResult -> Prop) m s n :
  P m ->
  logs_only P s
    (set_match_log (match_log s ++ [m])
       (set_active_games (PyDict.set (game_id m) m (active_games s))
          (set_clock_reads n s))).
Proof.
  intros Hm. split; [intros []; reflexivity |]. split; [reflexivity |].
  exists [m]. split; [reflexivity |]. constructor; [exact Hm | constructor].
Qed.

Lemma origin_wait_time P p : preserves (logs_only P) (wait_time clock p).
Proof.
  intros s. eexists _, _. split; [reflexivity | apply logs_only_clock].
Qed.

Lemma origin_ret {A} P (a : A) : preserves (logs_only P) (ret a).
Proof. apply preserves_ret, logs_only_refl. Qed.

Lemma origin_bind {A B} P (c : M A) (k : A -> M B) :
  preserves (logs_only P) c -> (forall a, preserves (logs_only P) (k a)) ->
  preserves (logs_only P) (bind c k).
Proof. apply preserves_bind, logs_only_trans. Qed.

Lemma match_step_origin qt snapshot entry to_remove :
  entry ∈ snapshot ->
  preserves (logs_only (match_origin clock (bool_decide (qt = ANY)) snapshot))
    (match_step clock qt snapshot entry to_remove).
Proof.
  intros Hentry. destruct entry as [k player].
  assert (player ∈ PyDict.values snapshot) as Hplayer
      by (apply (list_elem_of_fmap_2 snd) in Hentry; exact Hentry).
  unfold match_step. cbn [snd].
  destruct (bool_decide (player ∈ to_remove)); [apply origin_ret |].
  intros s. unfold bind at 1. rewrite wait_time_run.
  set (s1 := set_clock_reads (S (clock_reads s)) s).
  assert (logs_only (match_origin clock (bool_decide (qt = ANY)) snapshot)
            s s1) as Hs1 by apply logs_only_clock.
  match goal with |- exists a s', bind ?c ?k s1 = _ /\ _ =>
    assert (preserves
              (logs_only
                 (match_origin clock (bool_decide (qt = ANY)) snapshot))
              (bind c k)) as Hrest
  end.
  { apply origin_bind.
    - destruct (find_partner _ _ _ _) as [other |] eqn:Hfp;
        [| apply origin_ret].
      apply find_partner_Some in Hfp as (Hne & _ & Hother & Hrange).
      apply origin_bind; [| intros _; apply origin_ret].
      intros s0. rewrite _create_match_run. eexists _, _.
      split; [reflexivity |]. apply logs_only_record.
      left. exists player, other, (game_id_at (clock (clock_reads s0))),
        (clock_reads s).
      split; [exact Hplayer |]. split; [exact Hother |].
      split; [congruence |]. split; [exact Hrange | reflexivity].
    - intros tr. destruct (bool_decide (qt = ANY)) eqn:Hqt; cbn [andb];
        [| apply origin_ret].
      destruct (negb _); [| apply origin_ret].
      apply origin_bind; [apply origin_wait_time |]. intros w'.
      destruct (Qgtb _ _); [| apply origin_ret].
      apply origin_bind; [| intros _; apply origin_ret].
      intros s0. destruct (bot_level_configured (elo player)) as [cfg Hcfg].
      rewrite (_create_bot_match_run _ _ _ Hcfg). eexists _, _.
      split; [reflexivity |]. apply logs_only_record.
      right. split; [reflexivity |].
      exists player, cfg, (game_id_at (clock (clock_reads s0))). auto. }
  destruct (Hrest s1) as (a & s2 & Hrun & Hs2).
  exists a, s2. split; [exact Hrun |].
  exact (logs_only_trans _ _ _ _ Hs1 Hs2).
Qed.

Lemma _match_players_origin queue queue_type s :
  exists created s',
    _match_players clock queue queue_type s = (Return tt, s')
    /\ match_log s' = match_log s ++ created
    /\ Forall (match_origin clock (bool_decide (queue_type = ANY))
                 (_get_queue queue s)) created.
Proof.
  unfold _match_players. unfold bind at 1. unfold gets at 1.
  unfold PyDict.items.
  destruct (preserves_for_each
              (logs_only (match_origin clock (bool_decide (queue_type = ANY))
                            (_get_queue queue s)))
              (logs_only_refl _) (logs_only_trans _)
              (_get_queue queue s)
              (match_step clock queue_type (_get_queue queue s))
              (fun entry tr Hin => match_step_origin _ _ entry tr Hin) [] s)
    as (tr & s1 & Hrun & _ & _ & created & Hlog & HP).
  unfold bind at 1. rewrite Hrun.
  destruct (remove_matched_spec queue tr s1) as (s2 & Hrun2 & Hlog2 & _).
  exists created, s2. split; [exact Hrun2 |].
  split; [congruence | exact HP].
Qed.

Lemma bot_loop_origin items : forall to_remove s,
  exists created s',
    for_each items
      (fun entry to_remove =>
         bind (_create_bot_match clock entry.2)
           (fun _ => ret (to_remove ++ [entry.2])))
      to_remove s
    = (Return (to_remove ++ PyDict.values items), s')
    /\ match_log s' = match_log s ++ created
    /\ Forall2
         (fun p m =>
            exists bot_config gid,
              bot_configs !! _find_bot_level (elo p) = Some bot_config
              /\ m = bot_match p bot_config gid)
         (PyDict.values items) created.
Proof.
  induction items as [| [k p] items IH]; intros to_remove s.
  { exists [], s. cbn. rewrite !app_nil_r. repeat split. constructor. }
  cbn [for_each snd]. unfold bind at 1. unfold bind at 1.
  destruct (bot_level_configured (elo p)) as [cfg Hcfg].
  rewrite (_create_bot_match_run _ _ _ Hcfg). unfold ret at 1.
  match goal with |- context [for_each _ _ ?tr ?s0] =>
    destruct (IH tr s0) as (created & s' & Hloop & Hlog & Hall) end.
  eexists (_ :: created), s'. rewrite Hloop, <- app_assoc.
  split; [reflexivity |].
  split; [rewrite Hlog; cbn; rewrite <- app_assoc; reflexivity |].
  constructor; [| exact Hall]. eauto.
Qed.

Lemma _match_ai_players_origin s :
  exists created s',
    _match_ai_players clock s = (Return tt, s')
    /\ match_log s' = match_log s ++ created
    /\ Forall2
         (fun p m =>
            exists bot_config gid,
              bot_configs !! _find_bot_level (elo p) = Some bot_config
              /\ m = bot_match p bot_config gid)
         (PyDict.values (ai_queue s)) created.
Proof.
  unfold _match_ai_players. unfold bind at 1. unfold gets at 1.
  destruct (bot_loop_origin (PyDict.items (ai_queue s)) [] s)
    as (created & s1 & Hrun & Hlog & Hall).
  unfold bind at 1. rewrite Hrun. cbn [app].
  destruct (remove_matched_spec AI (PyDict.values (PyDict.items (ai_queue s)))
              s1) as (s2 & Hrun2 & Hlog2 & _).
  exists created, s2. split; [exact Hrun2 |].
  split; [congruence | exact Hall].
Qed.

Lemma _process_matches_origin s :
  exists c1 c2 c3,
    match_log (exec (_process_matches clock) s)
    = match_log s ++ c1 ++ c2 ++ c3
    /\ Forall (match_origin clock false (human_queue s)) c1
    /\ Forall (match_origin clock true (any_queue s)) c2
    /\ Forall2
         (fun p m =>
            exists bot_config gid,
              bot_configs !! _find_bot_level (elo p) = Some bot_config
              /\ m = bot_match p bot_config gid)
         (PyDict.values (ai_queue s)) c3.
Proof.
  unfold exec, _process_matches.
  destruct (_match_players_origin HUMAN HUMAN s)
    as (c1 & s1 & Hrun1 & Hlog1 & H1).
  destruct (_match_players_spec clock HUMAN HUMAN s)
    as (_ & _ & s1' & Hrun1' & _ & Hq1 & _).
  rewrite Hrun1 in Hrun1'. injection Hrun1' as <-.
  destruct (_match_players_origin ANY ANY s1)
    as (c2 & s2 & Hrun2 & Hlog2 & H2).
  destruct (_match_players_spec clock ANY ANY s1)
    as (_ & _ & s2' & Hrun2' & _ & Hq2 & _).
  rewrite Hrun2 in Hrun2'. injection Hrun2' as <-.
  destruct (_match_ai_players_origin s2) as (c3 & s3 & Hrun3 & Hlog3 & H3).
  unfold bind. rewrite Hrun1, Hrun2, Hrun3. cbn [snd].
  exists c1, c2, c3.
  split; [rewrite Hlog3, Hlog2, Hlog1, <- !app_assoc; reflexivity |].
  split; [exact H1 |].
  cbn [_get_queue] in H2.
  change (any_queue s1) with (_get_queue ANY s1) in H2.
  rewrite (Hq1 ANY) in H2 by done.
  split; [exact H2 |].
  change (ai_queue s2) with (_get_queue AI s2) in H3.
  rewrite (Hq2 AI), (Hq1 AI) in H3 by done. exact H3.
Qed.

End Origins.

Lemma pair_match_ratings (p q : QueuedPlayer) (gid : Z) :
  is_bot_match (pair_match p q gid) = false
  /\ Z.abs (player1_elo (pair_match p q gid)
            - player2_elo (pair_match p q gid))
     = Z.abs (elo q - elo p)
  /\ (player_address p <> player_address q ->
      player2_elo (pair_match p q gid) <= player1_elo (pair_match p q gid)).
Proof.
  unfold pair_match.
  destruct (Z.geb_spec (elo p) (elo q)); cbn.
  - rewrite !String.eqb_refl. split; [reflexivity |]. split; lia.
  - split; [reflexivity |].
    destruct (String.eqb_spec (player_address q) (player_address p))
      as [Heq | Hne].
    + rewrite Heq, String.eqb_refl. split; [lia | congruence].
    + destruct (String.eqb_spec (player_address p) (player_address q));
        [congruence |].
      split; [| intros _]; lia.
Qed.

Lemma Qgtb_seconds (micros seconds : Z) :
  Qgtb (micros # 1000000) (inject_Z seconds)
  = Z.ltb (seconds * 1000000) micros.
Proof.
  unfold Qgtb, Qle_bool, inject_Z. cbn [Qnum Qden].
  rewrite Z.ltb_antisym. f_equal. f_equal. lia.
Qed.

Lemma expanded_range_young (micros : Z) :
  micros <= 30000000 -> expanded_range (micros # 1000000) = 200.
Proof.
  intros Hle. unfold expanded_range, MAX_WAIT_EXPAND_TIME.
  rewrite Qgtb_seconds.
  destruct (Z.ltb_spec (30 * 1000000) micros); [lia | reflexivity].
Qed.

Lemma tick_created_split clock s created :
  match_log (exec (_process_matches clock) s) = match_log s ++ created ->
  exists c1 c2 c3,
    created = c1 ++ c2 ++ c3
    /\ Forall (match_origin clock false (human_queue s)) c1
    /\ Forall (match_origin clock true (any_queue s)) c2
    /\ Forall2
         (fun p m =>
            exists bot_config gid,
              bot_configs !! _find_bot_level (elo p) = Some bot_config
              /\ m = bot_match p bot_config gid)
         (PyDict.values (ai_queue s)) c3.
Proof.
  intros Hlog.
  destruct (_process_matches_origin clock s) as (c1 & c2 & c3 & Hlog' & H).
  exists c1, c2, c3. split; [| exact H].
  rewrite Hlog in Hlog'. apply app_inv_head in Hlog'. exact Hlog'.
Qed.

Lemma tick_match_cases clock s created m :
  match_log (exec (_process_matches clock) s) = match_log s ++ created ->
  m ∈ created ->
  (exists t p q gid n,
      (t = HUMAN \/ t = ANY)
      /\ p ∈ PyDict.values (_get_queue t s)
      /\ q ∈ PyDict.values (_get_queue t s)
      /\ p <> q
      /\ Z.abs (elo q - elo p)
         <= expanded_range ((clock n - queued_at p) # 1000000)
      /\ m = pair_match p q gid)
  \/ (exists t p bot_config gid,
        (t = ANY \/ t = AI)
        /\ p ∈ PyDict.values (_get_queue t s)
        /\ bot_configs !! _find_bot_level (elo p) = Some bot_config
        /\ m = bot_match p bot_config gid).
Proof.
  intros Hlog Hm.
  destruct (tick_created_split _ _ _ Hlog)
    as (c1 & c2 & c3 & -> & H1 & H2 & H3).
  rewrite !elem_of_app in Hm. destruct Hm as [Hm | [Hm | Hm]].
  - rewrite Forall_forall in H1.
    destruct (H1 m Hm) as [(p & q & gid & n & ?) | [Hc _]]; [| discriminate].
    left. exists HUMAN, p, q, gid, n. tauto.
  - rewrite Forall_forall in H2.
    destruct (H2 m Hm) as [(p & q & gid & n & ?) | [_ (p & cfg & gid & ?)]].
    + left. exists ANY, p, q, gid, n. tauto.
    + right. exists ANY, p, cfg, gid. tauto.
  - apply list_elem_of_lookup in Hm as [i Hi].
    destruct (Forall2_lookup_r _ _ _ _ _ H3 Hi) as (p & Hp & cfg & gid & ?).
    right. exists AI, p, cfg, gid. split; [auto |].
    split; [| tauto]. apply list_elem_of_lookup. eauto.
Qed.

(** X16: every match a tick creates is either between two distinct
    waiters of the same queue, HUMAN or ANY, or between a waiter of the
    ANY or the AI queue and the bot of its level; a waiter of the HUMAN
    queue is never given a bot. *)
Theorem every_match_has_an_origin clock (s : MatchmakingService)
    (created : list MatchResult) (m : MatchResult) :
  match_log (exec (_process_matches clock) s) = match_log s ++ created ->
  m ∈ created ->
  (is_bot_match m = false
   /\ exists t p q gid,
        (t = HUMAN \/ t = ANY)
        /\ p ∈ PyDict.values (_get_queue t s)
        /\ q ∈ PyDict.values (_get_queue t s)
        /\ p <> q
        /\ m = pair_match p q gid)
  \/ (is_bot_match m = true
      /\ exists t p bot_config gid,
           (t = ANY \/ t = AI)
           /\ p ∈ PyDict.values (_get_queue t s)
           /\ bot_configs !! _find_bot_level (elo p) = Some bot_config
           /\ m = bot_match p bot_config gid).
Proof.
  intros Hlog Hm.
  destruct (tick_match_cases _ _ _ _ Hlog Hm)
    as [(t & p & q & gid & n & Ht & Hp & Hq & Hne & _ & ->)
       | (t & p & cfg & gid & Ht & Hp & Hcfg & ->)].
  - left. split; [apply pair_match_ratings |].
    exists t, p, q, gid. auto.
  - right. split; [reflexivity |]. exists t, p, cfg, gid. auto.
Qed.

(** X17: while no waiter has waited more than 30 seconds, the two
    ratings of every pairing a tick creates are at most 200 apart. *)
Theorem pairings_within_200_before_30s clock (s : MatchmakingService)
    (created : list MatchResult) (m : MatchResult) :
  (forall n p, p ∈ waiters s -> clock n - queued_at p <= 30000000) ->
  match_log (exec (_process_matches clock) s) = match_log s ++ created ->
  m ∈ created ->
  is_bot_match m = false ->
  Z.abs (player1_elo m - player2_elo m) <= 200.
Proof.
  intros Hyoung Hlog Hm Hbot.
  destruct (tick_match_cases _ _ _ _ Hlog Hm)
    as [(t & p & q & gid & n & Ht & Hp & Hq & Hne & Hrange & ->)
       | (t & p & cfg & gid & _ & _ & _ & ->)]; [| discriminate].
  destruct (pair_match_ratings p q gid) as (_ & -> & _).
  rewrite expanded_range_young in Hrange; [exact Hrange |].
  apply Hyoung. unfold waiters. rewrite !elem_of_app.
  destruct Ht as [-> | ->]; auto.
Qed.

(** X18: when the waiters have pairwise distinct identities, every
    pairing a tick creates has two different players and its first side
    carries the rating that is not the lower one. *)
Theorem first_side_is_higher_rated clock (s : MatchmakingService)
    (created : list MatchResult) (m : MatchResult) :
  NoDup (player_address <$> waiters s) ->
  match_log (exec (_process_matches clock) s) = match_log s ++ created ->
  m ∈ created ->
  is_bot_match m = false ->
  player1 m <> player2 m /\ player2_elo m <= player1_elo m.
Proof.
  intros Hnd Hlog Hm Hbot.
  destruct (tick_match_cases _ _ _ _ Hlog Hm)
    as [(t & p & q & gid & n & Ht & Hp & Hq & Hne & _ & ->)
       | (t & p & cfg & gid & _ & _ & _ & ->)]; [| discriminate].
  assert (player_address p <> player_address q) as Hids.
  { intros Heq. apply Hne.
    apply (NoDup_fmap_inj_on player_address (waiters s)); auto;
      unfold waiters; rewrite !elem_of_app; destruct Ht as [-> | ->]; auto. }
  split; [| apply pair_match_ratings, Hids].
  unfold pair_match. destruct (Z.geb (elo p) (elo q)); cbn; congruence.
Qed.

(** X19: every bot match a tick creates carries the level found for
    the player's rating, a level from 1 to 10, the opponent name
    [bot_<level>] and the rating [200 * level + 200], and its player
    waited in the ANY or the AI queue. *)
Theorem bot_matches_are_consistent clock (s : MatchmakingService)
    (created : list MatchResult) (m : MatchResult) :
  match_log (exec (_process_matches clock) s) = match_log s ++ created ->
  m ∈ created ->
  is_bot_match m = true ->
  let level := _find_bot_level (player1_elo m) in
  bot_level m = Some level
  /\ 1 <= level <= 10
  /\ player2 m = String.append "bot_" (pretty level)
  /\ player2_elo m = 200 * level + 200
  /\ player1 m
     ∈ player_address <$>
         (PyDict.values (any_queue s) ++ PyDict.values (ai_queue s)).
Proof.
  intros Hlog Hm Hbot. cbv zeta.
  destruct (tick_match_cases _ _ _ _ Hlog Hm)
    as [(t & p & q & gid & n & _ & _ & _ & _ & _ & ->)
       | (t & p & cfg & gid & Ht & Hp & Hcfg & ->)].
  { destruct (pair_match_ratings p q gid) as (Hc & _). congruence. }
  cbn. split; [reflexivity |]. split; [apply _find_bot_level_range |].
  split; [reflexivity |]. split; [apply bot_configs_elo, Hcfg |].
  apply list_elem_of_fmap_2. rewrite elem_of_app.
  destruct Ht as [-> | ->]; auto.
Qed.

(** ** The AI queue and the bot fallback *)

Lemma remove_matched_queue queue to_remove : forall s,
  exists s',
    remove_matched queue to_remove s = (Return tt, s')
    /\ _get_queue queue s'
       = fold_left (fun d p => PyDict.pop (elo_bucket_of (elo p)) d)
           to_remove (_get_queue queue s)
    /\ player_lookup s'
       = fold_left (fun l p => delete (player_address p) l)
           to_remove (player_lookup s).
Proof.
  unfold remove_matched.
  induction to_remove as [| p to_remove IH]; intros s.
  { exists s. repeat split. }
  cbn [for_each fold_left]. unfold bind at 1. unfold bind at 1.
  unfold modify at 1 2.
  match goal with |- context [for_each _ _ tt ?s0] =>
    destruct (IH s0) as (s' & Hrun & Hq & Hl) end.
  exists s'. split; [exact Hrun |]. rewrite Hq, Hl.
  split; destruct queue; reflexivity.
Qed.

Lemma elem_pop_all {V W} (f : V -> Z) (to_remove : list V) :
  forall (d : PyDict.t W) (k : Z) (v : W),
  (k, v) ∈ fold_left (fun d p => PyDict.pop (f p) d) to_remove d ->
  (k, v) ∈ d /\ k ∉ f <$> to_remove.
Proof.
  induction to_remove as [| p to_remove IH]; intros d k v Hin; csimpl.
  - split; [exact Hin | apply not_elem_of_nil].
  - apply IH in Hin as [Hin Hnot]. apply elem_pop in Hin as [Hin Hne].
    split; [exact Hin |]. apply not_elem_of_cons. auto.
Qed.

Lemma pops_drain (d : PyDict.t QueuedPlayer) :
  (forall k p, (k, p) ∈ d -> k = elo_bucket_of (elo p)) ->
  fold_left (fun d p => PyDict.pop (elo_bucket_of (elo p)) d)
    (PyDict.values d) d = [].
Proof.
  intros Hkeyed.
  destruct (fold_left _ _ _) as [| [k p] rest] eqn:E; [reflexivity |].
  exfalso.
  assert ((k, p) ∈ fold_left
            (fun d p => PyDict.pop (elo_bucket_of (elo p)) d)
            (PyDict.values d) d) as Hin
      by (rewrite E; apply elem_of_cons; auto).
  apply (elem_pop_all (fun p => elo_bucket_of (elo p))) in Hin as [Hin Hnot].
  apply Hnot. rewrite (Hkeyed k p Hin).
  apply (list_elem_of_fmap_2 (fun p => elo_bucket_of (elo p))).
  apply (list_elem_of_fmap_2 snd) in Hin. exact Hin.
Qed.

Lemma _match_ai_players_drains clock s :
  (forall k p, (k, p) ∈ ai_queue s -> k = elo_bucket_of (elo p)) ->
  ai_queue (exec (_match_ai_players clock) s) = [].
Proof.
  intros Hkeyed. unfold exec, _match_ai_players.
  unfold bind at 1. unfold gets at 1.
  destruct (bot_loop_spec clock (PyDict.items (ai_queue s)) [] s)
    as (created & s1 & Hrun & (_ & Hai & _) & _).
  unfold bind at 1. rewrite Hrun. cbn [app].
  destruct (remove_matched_queue AI (PyDict.values (PyDict.items (ai_queue s)))
              s1) as (s2 & Hrun2 & Hq & _).
  rewrite Hrun2. cbn [snd]. cbn [_get_queue] in Hq. rewrite Hq, Hai.
  apply pops_drain, Hkeyed.
Qed.

(** X20: from a state whose queues store waiters under their bucket
    keys, a tick leaves the AI queue empty, and its last matches are one
    bot match per AI waiter, in queue order, at the waiter's level. *)
Theorem ai_queue_is_drained clock (s : MatchmakingService) :
  bucket_keyed s ->
  let s' := exec (_process_matches clock) s in
  ai_queue s' = []
  /\ exists earlier bots,
       match_log s' = match_log s ++ earlier ++ bots
       /\ Forall2
            (fun p m =>
               is_bot_match m = true
               /\ player1 m = player_address p
               /\ bot_level m = Some (_find_bot_level (elo p)))
            (PyDict.values (ai_queue s)) bots.
Proof.
  intros Hkeyed. cbv zeta. split.
  - unfold exec, _process_matches.
    destruct (shrinks_match_players clock HUMAN HUMAN s)
      as ([] & s1 & Hrun1 & H1).
    destruct (shrinks_match_players clock ANY ANY s1)
      as ([] & s2 & Hrun2 & H2).
    unfold bind. rewrite Hrun1, Hrun2.
    apply _match_ai_players_drains.
    pose proof (bucket_keyed_shrinks _ _ H2
                  (bucket_keyed_shrinks _ _ H1 Hkeyed) AI) as [_ Hin].
    intros k p Hp. apply (Hin k p Hp).
  - destruct (_process_matches_origin clock s)
      as (c1 & c2 & c3 & Hlog & _ & _ & H3).
    exists (c1 ++ c2), c3. rewrite <- app_assoc. split; [exact Hlog |].
    eapply Forall2_impl; [exact H3 |].
    intros p m (cfg & gid & _ & ->). repeat split.
Qed.

Lemma ai_queue_is_drained_witness :
  let s := run sample_clock
             [Enqueue (request_of "A" 1000 AI);
              Enqueue (request_of "B" 1500 AI)] init in
  ai_queue (exec (_process_matches sample_clock) s) = [].
Proof.
  apply ai_queue_is_drained.
  apply (bucket_keyed_run_events sample_clock
           [Request (Enqueue (request_of "A" 1000 AI));
            Request (Enqueue (request_of "B" 1500 AI))] init
           bucket_keyed_init).
Defined.

Section Fallback.
Variable clock : nat -> Z.

Lemma find_partner_alone p range to_remove k :
  find_partner p range to_remove [(k, p)] = None.
Proof.
  simpl. rewrite (bool_decide_eq_true_2 (p = p)) by done. reflexivity.
Qed.

Lemma tick_lone_any s p :
  human_queue s = [] -> ai_queue s = [] ->
  any_queue s = [(elo_bucket_of (elo p), p)] ->
  let late :=
    Z.ltb 10000000 (clock (S (clock_reads s)) - queued_at p) in
  exists s',
    _process_matches clock s = (Return tt, s')
    /\ human_queue s' = [] /\ ai_queue s' = []
    /\ if late then
         exists bot_config,
           bot_configs !! _find_bot_level (elo p) = Some bot_config
           /\ any_queue s' = []
           /\ player_lookup s' = delete (player_address p) (player_lookup s)
           /\ match_log s'
              = match_log s
                ++ [bot_match p bot_config
                      (game_id_at (clock (S (S (clock_reads s)))))]
       else
         any_queue s' = any_queue s
         /\ player_lookup s' = player_lookup s
         /\ match_log s' = match_log s
         /\ active_games s' = active_games s.
Proof.
  intros Hh Ha Hy. cbv zeta.
  unfold _process_matches. unfold bind at 1.
  rewrite _match_players_empty by exact Hh.
  unfold bind at 1. unfold _match_players at 1.
  unfold bind at 1. unfold gets at 1. cbn [_get_queue]. rewrite Hy.
  unfold PyDict.items. unfold bind at 1. cbn [for_each].
  unfold bind at 1. unfold match_step at 1. cbn [snd].
  rewrite (bool_decide_eq_false_2 (p ∈ [])) by apply not_elem_of_nil.
  unfold bind at 1. rewrite wait_time_run.
  rewrite find_partner_alone. unfold bind, ret.
  rewrite (bool_decide_eq_true_2 (ANY = ANY)) by done.
  rewrite (bool_decide_eq_false_2 (p ∈ [])) by apply not_elem_of_nil.
  cbn [andb negb]. rewrite wait_time_run.
  cbn [clock_reads set_clock_reads]. rewrite Qgtb_seconds.
  change (10 * 1000000) with 10000000.
  destruct (Z.ltb 10000000 (clock (S (clock_reads s)) - queued_at p)).
  - destruct (bot_level_configured (elo p)) as [cfg Hcfg].
    rewrite (_create_bot_match_run _ _ _ _ Hcfg).
    unfold remove_matched. cbn [for_each app]. unfold bind, modify, ret.
    cbn [update_queue].
    rewrite _match_ai_players_empty by (simpl; congruence).
    eexists. split; [reflexivity |]. cbn.
    rewrite Hy, Hh, Ha. cbn. rewrite Z.eqb_refl.
    split; [reflexivity |]. split; [reflexivity |].
    exists cfg. repeat split; auto.
  - unfold remove_matched. cbn [for_each]. unfold ret.
    rewrite _match_ai_players_empty by (simpl; congruence).
    eexists. split; [reflexivity |]. cbn. repeat split; auto.
Qed.

End Fallback.

(** X21: a waiter alone in the ANY queue gets a bot, and leaves queue
    and index, when the tick's second clock reading finds more than 10
    seconds of wait; at 10 seconds or less the tick changes neither queue,
    index, registry nor log. *)
Theorem any_waiter_falls_back_to_bot clock (s : MatchmakingService)
    (p : QueuedPlayer) :
  human_queue s = [] -> ai_queue s = [] ->
  any_queue s = [(elo_bucket_of (elo p), p)] ->
  let s' := exec (_process_matches clock) s in
  let waited := clock (S (clock_reads s)) - queued_at p in
  (10000000 < waited ->
   any_queue s' = []
   /\ player_lookup s' !! player_address p = None
   /\ exists bot_config gid,
        bot_configs !! _find_bot_level (elo p) = Some bot_config
        /\ match_log s' = match_log s ++ [bot_match p bot_config gid])
  /\ (waited <= 10000000 ->
      any_queue s' = any_queue s
      /\ player_lookup s' = player_lookup s
      /\ match_log s' = match_log s
      /\ active_games s' = active_games s).
Proof.
  intros Hh Ha Hy. cbv zeta. unfold exec.
  destruct (tick_lone_any clock s p Hh Ha Hy) as (s' & -> & _ & _ & Hcase).
  cbn [snd]. split; intros Hwait.
  - destruct (Z.ltb_spec 10000000 (clock (S (clock_reads s)) - queued_at p));
      [| lia].
    destruct Hcase as (cfg & Hcfg & Hq & Hl & Hlog).
    split; [exact Hq |]. split; [rewrite Hl; apply lookup_delete_eq |].
    eauto.
  - destruct (Z.ltb_spec 10000000 (clock (S (clock_reads s)) - queued_at p));
      [lia |].
    exact Hcase.
Qed.

Lemma any_waiter_falls_back_to_bot_witness :
  (let s := run slow_clock [Enqueue (request_of "C" 1500 ANY)] init in
   let s' := exec (_process_matches slow_clock) s in
   any_queue s' = []
   /\ exists bot_config gid,
        bot_configs !! 7 = Some bot_config
        /\ match_log s'
           = [bot_match (new_waiter slow_clock (request_of "C" 1500 ANY) init)
                bot_config gid])
  /\ (let s := run sample_clock [Enqueue (request_of "C" 1500 ANY)] init in
      any_queue (exec (_process_matches sample_clock) s) = any_queue s).
Proof.
  split.
  - destruct (any_waiter_falls_back_to_bot slow_clock
                (run slow_clock [Enqueue (request_of "C" 1500 ANY)] init)
                (new_waiter slow_clock (request_of "C" 1500 ANY) init))
      as [Hlate _]; [reflexivity | reflexivity | reflexivity |].
    destruct Hlate as (Hq & _ & cfg & gid & Hcfg & Hlog);
      [vm_compute; reflexivity |].
    split; [exact Hq |]. exists cfg, gid. split; [exact Hcfg | exact Hlog].
  - destruct (any_waiter_falls_back_to_bot sample_clock
                (run sample_clock [Enqueue (request_of "C" 1500 ANY)] init)
                (new_waiter sample_clock (request_of "C" 1500 ANY) init))
      as [_ Hearly]; [reflexivity | reflexivity | reflexivity |].
    destruct Hearly as (Hq & _); [vm_compute; discriminate |]. exact Hq.
Defined.

Lemma get_match_result_none_iff_witness :
  get_match_result "A" init = None.
Proof.
  apply get_match_result_none_iff. intros gid m H. inversion H.
Defined.

Lemma tick_never_raises_and_only_shrinks_witness :
  let s := run sample_clock [Enqueue (request_of "A" 1000 HUMAN)] init in
  result (_process_matches sample_clock) s = Return tt
  /\ (1000, new_waiter sample_clock (request_of "A" 1000 HUMAN) init)
     ∈ human_queue s.
Proof.
  destruct (tick_never_raises_and_only_shrinks sample_clock
              (run sample_clock [Enqueue (request_of "A" 1000 HUMAN)] init))
    as (Hres & Hqueues & _).
  split; [exact Hres |].
  apply (Hqueues HUMAN). vm_compute. apply elem_of_cons. left. reflexivity.
Defined.


Lemma every_match_has_an_origin_witness :
  let s := run sample_clock
             [Enqueue (request_of "A" 1000 HUMAN);
              Enqueue (request_of "B" 1100 HUMAN);
              Enqueue (request_of "D" 2000 AI)] init in
  let pairing := {| player1 := "B"; player2 := "A"; player1_elo := 1100;
                    player2_elo := 1000; game_id := 123;
                    is_bot_match := false; bot_level := None |} in
  exists t p q gid,
    (t = HUMAN \/ t = ANY)
    /\ p ∈ PyDict.values (_get_queue t s)
    /\ q ∈ PyDict.values (_get_queue t s)
    /\ p <> q
    /\ pairing = pair_match p q gid.
Proof.
  cbv zeta.
  destruct (every_match_has_an_origin sample_clock
              (run sample_clock
                 [Enqueue (request_of "A" 1000 HUMAN);
                  Enqueue (request_of "B" 1100 HUMAN);
                  Enqueue (request_of "D" 2000 AI)] init)
              [ {| player1 := "B"; player2 := "A"; player1_elo := 1100;
                   player2_elo := 1000; game_id := 123;
                   is_bot_match := false; bot_level := None |};
                {| player1 := "D"; player2 := "bot_10"; player1_elo := 2000;
                   player2_elo := 2200; game_id := 123;
                   is_bot_match := true; bot_level := Some 10 |} ]
              {| player1 := "B"; player2 := "A"; player1_elo := 1100;
                 player2_elo := 1000; game_id := 123;
                 is_bot_match := false; bot_level := None |})
    as [[_ Hpair] | [Hbot _]].
  - vm_compute. reflexivity.
  - apply elem_of_cons. left. reflexivity.
  - exact Hpair.
  - discriminate.
Defined.

Lemma pairings_within_200_before_30s_witness :
  let s := run instant_clock
             [Enqueue (request_of "A" 1000 HUMAN);
              Enqueue (request_of "B" 1051 HUMAN)] init in
  let pairing := {| player1 := "B"; player2 := "A"; player1_elo := 1051;
                    player2_elo := 1000; game_id := 2123;
                    is_bot_match := false; bot_level := None |} in
  match_log (exec (_process_matches instant_clock) s) = [pairing]
  /\ Z.abs (player1_elo pairing - player2_elo pairing) <= 200.
Proof.
  cbv zeta.
  assert (match_log
            (exec (_process_matches instant_clock)
               (run instant_clock
                  [Enqueue (request_of "A" 1000 HUMAN);
                   Enqueue (request_of "B" 1051 HUMAN)] init))
          = [ {| player1 := "B"; player2 := "A"; player1_elo := 1051;
                 player2_elo := 1000; game_id := 2123;
                 is_bot_match := false; bot_level := None |} ]) as Hlog
      by (vm_compute; reflexivity).
  split; [exact Hlog |].
  apply (pairings_within_200_before_30s instant_clock
           (run instant_clock
              [Enqueue (request_of "A" 1000 HUMAN);
               Enqueue (request_of "B" 1051 HUMAN)] init)
           [ {| player1 := "B"; player2 := "A"; player1_elo := 1051;
                player2_elo := 1000; game_id := 2123;
                is_bot_match := false; bot_level := None |} ]).
  - intros n p Hp.
    assert (queued_at p = 1700000000123000) as ->.
    { vm_compute in Hp.
      apply elem_of_cons in Hp as [-> | Hp]; [reflexivity |].
      apply elem_of_cons in Hp as [-> | Hp]; [reflexivity |].
      inversion Hp. }
    unfold instant_clock. destruct (Nat.ltb n 2); lia.
  - exact Hlog.
  - apply elem_of_cons. left. reflexivity.
  - reflexivity.
Defined.

Lemma first_side_is_higher_rated_witness :
  let s := run instant_clock
             [Enqueue (request_of "A" 1000 HUMAN);
              Enqueue (request_of "B" 1051 HUMAN)] init in
  let pairing := {| player1 := "B"; player2 := "A"; player1_elo := 1051;
                    player2_elo := 1000; game_id := 2123;
                    is_bot_match := false; bot_level := None |} in
  match_log (exec (_process_matches instant_clock) s) = [pairing]
  /\ player2_elo pairing <= player1_elo pairing.
Proof.
  cbv zeta.
  assert (match_log
            (exec (_process_matches instant_clock)
               (run instant_clock
                  [Enqueue (request_of "A" 1000 HUMAN);
                   Enqueue (request_of "B" 1051 HUMAN)] init))
          = [ {| player1 := "B"; player2 := "A"; player1_elo := 1051;
                 player2_elo := 1000; game_id := 2123;
                 is_bot_match := false; bot_level := None |} ]) as Hlog
      by (vm_compute; reflexivity).
  split; [exact Hlog |].
  apply (first_side_is_higher_rated instant_clock
           (run instant_clock
              [Enqueue (request_of "A" 1000 HUMAN);
               Enqueue (request_of "B" 1051 HUMAN)] init)
           [ {| player1 := "B"; player2 := "A"; player1_elo := 1051;
                player2_elo := 1000; game_id := 2123;
                is_bot_match := false; bot_level := None |} ]).
  - apply (bool_decide_unpack _). vm_compute. exact I.
  - exact Hlog.
  - apply elem_of_cons. left. reflexivity.
  - reflexivity.
Defined.

Lemma bot_matches_are_consistent_witness :
  let s := run sample_clock [Enqueue (request_of "D" 2000 AI)] init in
  let served := {| player1 := "D"; player2 := "bot_10"; player1_elo := 2000;
                   player2_elo := 2200; game_id := 123;
                   is_bot_match := true; bot_level := Some 10 |} in
  match_log (exec (_process_matches sample_clock) s) = [served]
  /\ player2_elo served = 200 * _find_bot_level (player1_elo served) + 200.
Proof.
  cbv zeta.
  assert (match_log
            (exec (_process_matches sample_clock)
               (run sample_clock [Enqueue (request_of "D" 2000 AI)] init))
          = [ {| player1 := "D"; player2 := "bot_10"; player1_elo := 2000;
                 player2_elo := 2200; game_id := 123;
                 is_bot_match := true; bot_level := Some 10 |} ]) as Hlog
      by (vm_compute; reflexivity).
  split; [exact Hlog |].
  apply (bot_matches_are_consistent sample_clock
           (run sample_clock [Enqueue (request_of "D" 2000 AI)] init)
           [ {| player1 := "D"; player2 := "bot_10"; player1_elo := 2000;
                player2_elo := 2200; game_id := 123;
                is_bot_match := true; bot_level := Some 10 |} ]).
  - exact Hlog.
  - apply elem_of_cons. left. reflexivity.
  - reflexivity.
Defined.

(** ** The wait estimate *)

(** X22: the wait estimate is 5 exactly for an empty queue, lies
    between 5 and 60, and does not decrease when the queue grows. *)
Theorem wait_estimate_is_a_step_function (t : OpponentType)
    (s1 s2 : MatchmakingService) :
  (_estimate_wait_time t s1 = 5 <-> _get_queue t s1 = [])
  /\ 5 <= _estimate_wait_time t s1 <= 60
  /\ (PyDict.len (_get_queue t s1) <= PyDict.len (_get_queue t s2) ->
      _estimate_wait_time t s1 <= _estimate_wait_time t s2).
Proof.
  unfold _estimate_wait_time, PyDict.len.
  split; [| split].
  - destruct (_get_queue t s1) as [| x l]; [split; reflexivity |].
    cbn [length].
    destruct (Z.eqb_spec (Z.of_nat (S (length l))) 0); [lia |].
    split; [| discriminate].
    destruct (Z.ltb _ 5); [discriminate |].
    destruct (Z.ltb _ 10); discriminate.
  - destruct (Z.eqb _ 0); [lia |]. destruct (Z.ltb _ 5); [lia |].
    destruct (Z.ltb _ 10); lia.
  - intros Hle.
    destruct (Z.eqb_spec (Z.of_nat (length (_get_queue t s1))) 0);
      destruct (Z.eqb_spec (Z.of_nat (length (_get_queue t s2))) 0);
      destruct (Z.ltb_spec (Z.of_nat (length (_get_queue t s1))) 5);
      destruct (Z.ltb_spec (Z.of_nat (length (_get_queue t s2))) 5);
      destruct (Z.ltb_spec (Z.of_nat (length (_get_queue t s1))) 10);
      destruct (Z.ltb_spec (Z.of_nat (length (_get_queue t s2))) 10);
      lia.
Qed.

Lemma wait_estimate_is_a_step_function_witness :
  let s := exec (queue_player sample_clock (request_of "A" 1000 HUMAN)) init in
  _estimate_wait_time HUMAN init <= _estimate_wait_time HUMAN s.
Proof.
  destruct (wait_estimate_is_a_step_function HUMAN init
              (exec (queue_player sample_clock (request_of "A" 1000 HUMAN))
                 init)) as (_ & _ & Hmono).
  apply Hmono. vm_compute. discriminate.
Defined.

(** ** First fit *)

(** X23: the partner search is first fit: it returns the first waiter
    in iteration order that is another record, not yet matched and within
    the range, whatever closer waiters follow, and [None] exactly when no
    such waiter exists. *)
Theorem find_partner_is_first_fit (player : QueuedPlayer) (range : Z)
    (to_remove : list QueuedPlayer) (items : list (Z * QueuedPlayer)) :
  let eligible q :=
    q <> player /\ (q ∉ to_remove)
    /\ Z.abs (elo q - elo player) <= range in
  match find_partner player range to_remove items with
  | Some other =>
      exists pre k post,
        items = pre ++ (k, other) :: post
        /\ eligible other
        /\ forall k' q, (k', q) ∈ pre -> ~ eligible q
  | None => forall k q, (k, q) ∈ items -> ~ eligible q
  end.
Proof.
  cbv zeta. induction items as [| [k q] items IH]; cbn [find_partner].
  { intros k q H. inversion H. }
  assert (forall other,
            find_partner player range to_remove items = Some other ->
            ~ (q <> player /\ (q ∉ to_remove)
               /\ Z.abs (elo q - elo player) <= range) ->
            exists pre k0 post,
              (k, q) :: items = pre ++ (k0, other) :: post
              /\ (other <> player /\ (other ∉ to_remove)
                  /\ Z.abs (elo other - elo player) <= range)
              /\ forall k' q',
                   (k', q') ∈ pre ->
                   ~ (q' <> player /\ (q' ∉ to_remove)
                      /\ Z.abs (elo q' - elo player) <= range)) as Hskip.
  { intros other Hfp Hq. rewrite Hfp in IH.
    destruct IH as (pre & k0 & post & -> & Hel & Hpre).
    exists ((k, q) :: pre), k0, post. split; [reflexivity |].
    split; [exact Hel |].
    intros k' q' Hin. apply elem_of_cons in Hin as [[= -> ->] | Hin]; eauto. }
  assert (find_partner player range to_remove items = None ->
          ~ (q <> player /\ (q ∉ to_remove)
             /\ Z.abs (elo q - elo player) <= range) ->
          forall k' q',
            (k', q') ∈ (k, q) :: items ->
            ~ (q' <> player /\ (q' ∉ to_remove)
               /\ Z.abs (elo q' - elo player) <= range)) as Hnone.
  { intros Hfp Hq k' q' Hin. rewrite Hfp in IH.
    apply elem_of_cons in Hin as [[= -> ->] | Hin]; eauto. }
  destruct (decide (q = player)) as [Heq | Hne].
  { rewrite (bool_decide_eq_true_2 _ Heq). cbn [orb].
    destruct (find_partner player range to_remove items) eqn:E;
      [apply Hskip | apply Hnone]; tauto. }
  rewrite (bool_decide_eq_false_2 _ Hne). cbn [orb].
  destruct (decide (q ∈ to_remove)) as [Hin | Hnin].
  { rewrite (bool_decide_eq_true_2 _ Hin).
    destruct (find_partner player range to_remove items) eqn:E;
      [apply Hskip | apply Hnone]; tauto. }
  rewrite (bool_decide_eq_false_2 _ Hnin).
  destruct (Z.leb_spec (Z.abs (elo q - elo player)) range) as [Hle | Hgt].
  - exists [], k, items. split; [reflexivity |]. split; [auto |].
    intros k' q' H. inversion H.
  - destruct (find_partner player range to_remove items) eqn:E;
      [apply Hskip | apply Hnone]; auto; lia.
Qed.

Lemma find_partner_is_first_fit_witness :
  let a := new_waiter sample_clock (request_of "A" 1000 HUMAN) init in
  let b := new_waiter sample_clock (request_of "B" 1190 HUMAN) init in
  let c := new_waiter sample_clock (request_of "C" 1010 HUMAN) init in
  find_partner a 200 [] [(1000, a); (1200, b); (1000, c)] = Some b
  /\ Z.abs (elo b - elo a) <= 200.
Proof.
  cbv zeta.
  pose proof (find_partner_is_first_fit
                (new_waiter sample_clock (request_of "A" 1000 HUMAN) init)
                200 []
                [(1000,
                  new_waiter sample_clock (request_of "A" 1000 HUMAN) init);
                 (1200,
                  new_waiter sample_clock (request_of "B" 1190 HUMAN) init);
                 (1000,
                  new_waiter sample_clock (request_of "C" 1010 HUMAN) init)])
    as H.
  cbv zeta in H.
  assert (find_partner
            (new_waiter sample_clock (request_of "A" 1000 HUMAN) init)
            200 []
            [(1000, new_waiter sample_clock (request_of "A" 1000 HUMAN) init);
             (1200, new_waiter sample_clock (request_of "B" 1190 HUMAN) init);
             (1000, new_waiter sample_clock (request_of "C" 1010 HUMAN) init)]
          = Some (new_waiter sample_clock (request_of "B" 1190 HUMAN) init))
    as Hfp by (vm_compute; reflexivity).
  rewrite Hfp in H. destruct H as (_ & _ & _ & _ & (_ & _ & Hrange) & _).
  split; [exact Hfp | exact Hrange].
Defined.

(** ** From an AI request to the polled match *)

Lemma find_match_set (address : string) (gid : Z) (m : MatchResult)
    (games : PyDict.t MatchResult) :
  (forall g m', (g, m') ∈ games ->
                player1 m' <> address /\ player2 m' <> address) ->
  player1 m = address ->
  exists g,
    find_match address (PyDict.set gid m games)
    = Some {| found_game_id := g; opponent := player2 m;
              opponent_elo := player2_elo m; is_bot := is_bot_match m;
              found_bot_level := bot_level m; color := WHITE |}.
Proof.
  intros Hgames Hm. induction games as [| [g0 m0] games IH]; simpl.
  - rewrite Hm, String.eqb_refl. simpl. eauto.
  - destruct (Z.eqb_spec gid g0) as [-> | Hne]; simpl.
    + rewrite Hm, String.eqb_refl. simpl. eauto.
    + destruct (Hgames g0 m0) as [H1 H2]; [apply elem_of_cons; auto |].
      apply String.eqb_neq in H1, H2. rewrite H1, H2. simpl.
      apply IH. intros g m' Hin. apply (Hgames g), elem_of_cons. auto.
Qed.

Section AiRequest.
Variable clock : nat -> Z.

Lemma tick_lone_ai s p :
  human_queue s = [] -> any_queue s = [] ->
  ai_queue s = [(elo_bucket_of (elo p), p)] ->
  exists bot_config s',
    bot_configs !! _find_bot_level (elo p) = Some bot_config
    /\ _process_matches clock s = (Return tt, s')
    /\ ai_queue s' = []
    /\ player_lookup s' = delete (player_address p) (player_lookup s)
    /\ active_games s'
       = PyDict.set (game_id_at (clock (clock_reads s)))
           (bot_match p bot_config (game_id_at (clock (clock_reads s))))
           (active_games s).
Proof.
  intros Hh Hy Ha.
  destruct (bot_level_configured (elo p)) as [cfg Hcfg]. exists cfg.
  unfold _process_matches. unfold bind at 1.
  rewrite _match_players_empty by exact Hh.
  unfold bind at 1. rewrite _match_players_empty by exact Hy.
  unfold _match_ai_players. unfold bind at 1. unfold gets at 1.
  rewrite Ha. unfold PyDict.items. cbn [for_each snd].
  unfold bind, ret. rewrite (_create_bot_match_run _ _ _ _ Hcfg).
  unfold remove_matched. cbn [for_each app]. unfold bind, modify, ret.
  eexists. split; [exact Hcfg |]. split; [reflexivity |]. cbn.
  rewrite Ha. cbn. rewrite Z.eqb_refl. auto.
Qed.

End AiRequest.

(** X24: when all queues are empty and no recorded game involves the
    player, an AI request followed by one tick leaves the player out of
    queue and index, and polling returns a bot game: opponent
    [bot_<level>] rated [200 * level + 200], colour WHITE. *)
Theorem ai_request_is_served_by_next_tick clock
    (request : MatchmakingRequest) (s : MatchmakingService) :
  req_preferred_opponent request = AI ->
  human_queue s = [] -> ai_queue s = [] -> any_queue s = [] ->
  (forall g m, (g, m) ∈ active_games s ->
               player1 m <> req_player request
               /\ player2 m <> req_player request) ->
  let s' := exec (_process_matches clock)
              (exec (queue_player clock request) s) in
  let level := _find_bot_level (req_player_elo request) in
  ai_queue s' = []
  /\ player_lookup s' !! req_player request = None
  /\ exists gid,
       get_match_result (req_player request) s'
       = Some {| found_game_id := gid;
                 opponent := String.append "bot_" (pretty level);
                 opponent_elo := 200 * level + 200;
                 is_bot := true;
                 found_bot_level := Some level;
                 color := WHITE |}.
Proof.
  intros Hpref Hh Ha Hy Hgames. cbv zeta.
  set (s1 := exec (queue_player clock request) s).
  set (p := new_waiter clock request s).
  assert (human_queue s1 = [] /\ any_queue s1 = []
          /\ ai_queue s1 = [(elo_bucket_of (elo p), p)]
          /\ active_games s1 = active_games s) as (Hh1 & Hy1 & Ha1 & Hg1).
  { unfold s1, p. destruct request as [a e t lo hi]. simpl in Hpref.
    subst t. unfold exec. cbn. rewrite Hh, Hy, Ha. auto. }
  destruct (tick_lone_ai clock s1 p Hh1 Hy1 Ha1)
    as (cfg & s' & Hcfg & Hrun & Hq & Hl & Hg).
  unfold exec at 1 2 3. rewrite Hrun. cbn [snd].
  split; [exact Hq |].
  split; [rewrite Hl; apply lookup_delete_eq |].
  unfold get_match_result, PyDict.items. rewrite Hg, Hg1.
  destruct (find_match_set (req_player request)
              (game_id_at (clock (clock_reads s1)))
              (bot_match p cfg (game_id_at (clock (clock_reads s1))))
              (active_games s) Hgames eq_refl) as [g Hfound].
  exists g. rewrite Hfound. cbn.
  rewrite (bot_configs_elo _ _ Hcfg). reflexivity.
Qed.

Lemma ai_request_is_served_by_next_tick_witness :
  let s' := exec (_process_matches sample_clock)
              (exec (queue_player sample_clock (request_of "D" 2000 AI))
                 init) in
  exists gid,
    get_match_result "D" s'
    = Some {| found_game_id := gid; opponent := "bot_10";
              opponent_elo := 2200; is_bot := true;
              found_bot_level := Some 10; color := WHITE |}.
Proof.
  destruct (ai_request_is_served_by_next_tick sample_clock
              (request_of "D" 2000 AI) init)
    as (_ & _ & gid & Hpoll);
    [reflexivity | reflexivity | reflexivity | reflexivity
    | intros g m H; inversion H |].
  exists gid. exact Hpoll.
Defined.
